(** * lsif-tsc: project orchestration and streaming emission

    A shallow embedding of [src/main.ts] and [src/emitter.ts]: the identifier
    generator, the streaming emitter, the configuration loader, the project
    host's snapshot cache and the recursive project orchestrator, together
    with the properties the design document states about them. *)

From Stdlib Require Import ZArith String Ascii List Lia DecimalString.
From stdpp Require Import base option list strings gmap.

Local Open Scope Z_scope.

(** ** Text utilities *)

Module Text.

Definition LF : ascii := "010"%char.

Definition is_lf (c : ascii) : bool := Ascii.eqb c LF.

(** Does the text contain a line feed? *)
Fixpoint has_lf (s : string) : bool :=
  match s with
  | EmptyString => false
  | String c s' => is_lf c || has_lf s'
  end.

(** The lines of a text: every line feed closes the line collected so
    far in [cur]; text after the last line feed is an unfinished line. *)
Fixpoint lines_from (cur : string) (s : string) : list string :=
  match s with
  | EmptyString => match cur with EmptyString => [] | _ => [cur] end
  | String c s' =>
      if is_lf c then cur :: lines_from "" s'
      else lines_from (cur +:+ String c "") s'
  end.

Definition lines (s : string) : list string := lines_from "" s.

(** [' '.repeat(n)] *)
Fixpoint repeat_space (n : nat) : string :=
  match n with
  | O => ""
  | S n' => String " " (repeat_space n')
  end.

(** Texts are held in UTF-8. The white space and the line terminators
    of ECMAScript (the productions WhiteSpace and LineTerminator of
    ECMA-262) are the code points below; a code point takes one, two or
    three bytes. *)

(** U+0009 to U+000D and U+0020. *)
Definition is_space (c : ascii) : bool :=
  let n := nat_of_ascii c in
  (Nat.eqb n 32 || (Nat.leb 9 n && Nat.leb n 13))%bool.

(** U+00A0, the bytes C2 A0. *)
Definition is_space2 (b1 b2 : ascii) : bool :=
  (Nat.eqb (nat_of_ascii b1) 194 && Nat.eqb (nat_of_ascii b2) 160)%bool.

(** U+1680 (E1 9A 80); U+2000 to U+200A, U+2028, U+2029 and U+202F
    (E2 80 80 to E2 80 8A, E2 80 A8, E2 80 A9, E2 80 AF); U+205F
    (E2 81 9F); U+3000 (E3 80 80); U+FEFF (EF BB BF). *)
Definition is_space3 (b1 b2 b3 : ascii) : bool :=
  let n1 := nat_of_ascii b1 in
  let n2 := nat_of_ascii b2 in
  let n3 := nat_of_ascii b3 in
  ((Nat.eqb n1 225 && Nat.eqb n2 154 && Nat.eqb n3 128)
   || (Nat.eqb n1 226 && Nat.eqb n2 128 &&
       ((Nat.leb 128 n3 && Nat.leb n3 138)
        || Nat.eqb n3 168 || Nat.eqb n3 169 || Nat.eqb n3 175))
   || (Nat.eqb n1 226 && Nat.eqb n2 129 && Nat.eqb n3 159)
   || (Nat.eqb n1 227 && Nat.eqb n2 128 && Nat.eqb n3 128)
   || (Nat.eqb n1 239 && Nat.eqb n2 187 && Nat.eqb n3 191))%bool.

(** The bytes of a text from the last to the first, without the white
    space the text ends with. *)
Fixpoint strip (reversed : list ascii) : list ascii :=
  match reversed with
  | [] => []
  | b3 :: before =>
      if is_space b3 then strip before
      else
        match before with
        | [] => reversed
        | b2 :: before2 =>
            if is_space2 b2 b3 then strip before2
            else
              match before2 with
              | [] => reversed
              | b1 :: before3 =>
                  if is_space3 b1 b2 b3 then strip before3 else reversed
              end
        end
  end.

(** [String.prototype.trimRight] *)
Definition trimRight (s : string) : string :=
  string_of_list_ascii (List.rev (strip (List.rev (list_ascii_of_string s)))).

(** Text that ends every line with a line feed. *)
Definition terminated (s : string) : Prop :=
  s = "" \/ exists s', s = s' +:+ String LF "".

End Text.

(** ** JSON values and [JSON.stringify] *)

Module JSON.

(** The values [JSON.stringify] meets in an LSIF vertex or edge. Numbers
    are the integers (identifiers, line and character offsets); an
    object keeps its properties in insertion order. *)
#[warnings="-register-all"]
Inductive Json : Type :=
| JNull
| JBool (b : bool)
| JNumber (n : Z)
| JString (s : string)
| JArray (elements : list Json)
| JObject (properties : list (string * Json)).

Definition hex_digit (n : nat) : ascii :=
  if Nat.ltb n 10 then ascii_of_nat (48 + n) else ascii_of_nat (87 + n).

(** One code unit inside a quoted string: the escapes of ECMA-262
    QuoteJSONString. *)
Definition quote_char (c : ascii) : string :=
  let n := nat_of_ascii c in
  if Nat.eqb n 8 then "\b"
  else if Nat.eqb n 9 then "\t"
  else if Nat.eqb n 10 then "\n"
  else if Nat.eqb n 12 then "\f"
  else if Nat.eqb n 13 then "\r"
  else if Nat.eqb n 34 then String "\" (String "034"%char "")
  else if Nat.eqb n 92 then "\\"
  else if Nat.ltb n 32 then
    "\u00" +:+ String (hex_digit (n / 16)) (String (hex_digit (n mod 16)) "")
  else String c "".

Fixpoint quote_chars (s : string) : string :=
  match s with
  | EmptyString => ""
  | String c s' => quote_char c +:+ quote_chars s'
  end.

Definition dquote : string := String "034"%char "".

Definition QuoteJSONString (s : string) : string :=
  dquote +:+ quote_chars s +:+ dquote.

(** [Number::toString] on an integer. *)
Definition NumberToString (n : Z) : string :=
  NilZero.string_of_int (Z.to_int n).

(** The [space] argument of [JSON.stringify]: a number is clamped to 10
    and stands for that many spaces. *)
Definition gap_of_space (space : nat) : string :=
  Text.repeat_space (Nat.min 10 space).

Definition wrap (gap stepback indent : string) (opening closing : string)
    (partial : list string) : string :=
  match partial with
  | [] => opening +:+ closing
  | _ =>
      match gap with
      | EmptyString => opening +:+ String.concat "," partial +:+ closing
      | _ =>
          let separator := "," +:+ String Text.LF indent in
          opening +:+ String Text.LF indent +:+ String.concat separator partial
            +:+ String Text.LF stepback +:+ closing
      end
  end.

Definition member (gap : string) (key : string) (strP : string) : string :=
  QuoteJSONString key +:+ ":" +:+
    match gap with EmptyString => "" | _ => " " end +:+ strP.

(** ECMA-262 SerializeJSONProperty, SerializeJSONObject and
    SerializeJSONArray, without a replacer. *)
Fixpoint SerializeJSONProperty (gap indent : string) (value : Json) : string :=
  match value with
  | JNull => "null"
  | JBool true => "true"
  | JBool false => "false"
  | JNumber n => NumberToString n
  | JString s => QuoteJSONString s
  | JArray elements =>
      let stepback := indent in
      let indent := indent +:+ gap in
      wrap gap stepback indent "[" "]"
        (List.map (SerializeJSONProperty gap indent) elements)
  | JObject properties =>
      let stepback := indent in
      let indent := indent +:+ gap in
      wrap gap stepback indent "{" "}"
        (List.map (fun kv => member gap (fst kv) (SerializeJSONProperty gap indent (snd kv)))
           properties)
  end.

(** [JSON.stringify(value, undefined, space)] *)
Definition stringify (value : Json) (space : nat) : string :=
  SerializeJSONProperty (gap_of_space space) "" value.

(** Induction over a JSON value and the values nested in it. *)
Section Induction.
Variable P : Json -> Prop.
Hypothesis P_null : P JNull.
Hypothesis P_bool : forall b, P (JBool b).
Hypothesis P_number : forall n, P (JNumber n).
Hypothesis P_string : forall s, P (JString s).
Hypothesis P_array : forall elements, Forall P elements -> P (JArray elements).
Hypothesis P_object :
  forall properties, Forall (fun kv => P (snd kv)) properties -> P (JObject properties).

Fixpoint Json_nested_ind (v : Json) : P v :=
  match v with
  | JNull => P_null
  | JBool b => P_bool b
  | JNumber n => P_number n
  | JString s => P_string s
  | JArray elements =>
      P_array elements
        ((fix all (l : list Json) : Forall P l :=
            match l with
            | [] => @List.Forall_nil _ P
            | x :: l' => @List.Forall_cons _ P x l' (Json_nested_ind x) (all l')
            end) elements)
  | JObject properties =>
      P_object properties
        ((fix all (l : list (string * Json)) : Forall (fun kv => P (snd kv)) l :=
            match l with
            | [] => @List.Forall_nil _ _
            | kv :: l' =>
                @List.Forall_cons _ (fun kv => P (snd kv)) kv l'
                  (Json_nested_ind (snd kv)) (all l')
            end) properties)
  end.
End Induction.

End JSON.

Import JSON.

(** ** Data model *)

(** Identifiers are JavaScript numbers holding integers; the embedding
    covers the range in which a number represents every integer exactly. *)
Definition Id : Type := Z.

(** A thrown [Error], by its message. *)
Definition Error : Type := string.

(** The TypeErrors of the engine the configuration loader can run into:
    reading a property of [null], and [Object.assign] on [null]. *)
Inductive TypeErrorOf : Type :=
| ReadPropertyOfNull (property : string)
| ConvertNullToObject.

(** [interface Options] of [main.ts]. *)
Record Options : Type := {
  help : bool;
  version : bool;
  projectRoot : option string;
  repositoryRoot : option string;
  addContents : bool;
  inferTypings : bool;
  out : string;
}.

Module OptionDescription.
Inductive kind : Type := boolean | string_.
Record t : Type := {
  id : string;
  type : kind;
  alias : option string;
  description : string;
}.
End OptionDescription.

Module Options.
Import OptionDescription.

Definition defaults : Options := {|
  help := false;
  version := false;
  projectRoot := None;
  repositoryRoot := None;
  addContents := false;
  inferTypings := false;
  out := "dump.lsif";
|}.

Definition descriptions : list OptionDescription.t := [
  {| id := "version"; type := boolean; alias := Some "v";
     description := "output the version number" |};
  {| id := "help"; type := boolean; alias := Some "h";
     description := "output usage information" |};
  {| id := "projectRoot"; type := string_; alias := None;
     description := "Specifies the project root. Defaults to the current working directory." |};
  {| id := "repositoryRoot"; type := string_; alias := None;
     description := "Specifies the repository root." |};
  {| id := "addContents"; type := boolean; alias := None;
     description := "File contents will be embedded into the dump." |};
  {| id := "inferTypings"; type := boolean; alias := None;
     description := "Infer typings for JavaScript npm modules." |};
  {| id := "out"; type := string_; alias := None;
     description := "The output file the dump is save to." |}
].

Definition with_projectRoot (o : Options) (p : option string) : Options := {|
  help := help o; version := version o; projectRoot := p;
  repositoryRoot := repositoryRoot o; addContents := addContents o;
  inferTypings := inferTypings o; out := out o |}.

Definition with_repositoryRoot (o : Options) (p : option string) : Options := {|
  help := help o; version := version o; projectRoot := projectRoot o;
  repositoryRoot := p; addContents := addContents o;
  inferTypings := inferTypings o; out := out o |}.
End Options.

(** What happens outside the program's own state and can be observed:
    console output, child processes, and the identifiers handed out. *)
Inductive Event : Type :=
| ConsoleError (message : string)
| ConsoleLog (message : string)
| ExecSync (command : string)
| NextIdentifier (id : Id).

(** The types of the collaborators the orchestrator only passes around. *)
Class Types : Type := {
  (** the process environment: file system, working directory, installed
      packages, and whatever state the collaborators keep *)
  Env : Type;
  Diagnostic : Type;
  Program : Type;
  LanguageService : Type;
  ImportLinker : Type;
  ExportLinker : Type;
  PackageJson : Type;
  (** [ProjectInfo] of [./lsif] *)
  ProjectInfo : Type;
}.

Module ts.
Section Defs.
Context {T : Types}.

(** [ts.CompilerOptions] as far as the orchestrator reads it. *)
Record CompilerOptions : Type := {
  project : option string;
  types : option (list string);
  settings : gmap string Json;
}.

Record ProjectReference : Type := { path : string }.

Record ParsedCommandLine : Type := {
  options : CompilerOptions;
  fileNames : list string;
  projectReferences : option (list ProjectReference);
  errors : list Diagnostic;
}.

Record ResolvedProjectReference : Type := {
  commandLine : ParsedCommandLine;
}.

(** What a configuration holds under [compilerOptions]: [null], an
    object with its properties, or something else (a boolean, a number,
    a string, an array). *)
Inductive Section_ : Type :=
| SectionNull
| SectionObject (properties : gmap string Json)
| SectionOther (v : Json).

(** A configuration that is an object: the [compilerOptions] property,
    when present, and the other properties. *)
Record RawConfig : Type := {
  compilerOptions : option Section_;
  otherProperties : list (string * Json);
}.

(** The value [ts.readConfigFile] yields for the text of a configuration
    file, whatever JSON the file holds: [null], an object, or something
    else (a boolean, a number, a string, an array). *)
Inductive Config : Type :=
| ConfigNull
| ConfigObject (properties : RawConfig)
| ConfigOther (v : Json).

Record ReadResult : Type := {
  config : Config;
  error : option Diagnostic;
}.

(** A snapshot object: [ref] is the object's identity, [getText] the
    captured content. *)
Record IScriptSnapshot : Type := {
  ref : nat;
  getText : string;
}.

(** The map [scriptSnapshots] a host closes over, with the number of
    snapshot objects allocated for it so far. *)
Record Snapshots : Type := {
  entries : gmap string IScriptSnapshot;
  allocated : nat;
}.

Record LanguageServiceHost : Type := {
  getScriptFileNames : unit -> list string;
  getCompilationSettings : unit -> CompilerOptions;
  getProjectReferences : unit -> option (list ProjectReference);
  getScriptVersion : string -> string;
  getProjectVersion : unit -> string;
  (** the captured map and the method that reads and fills it *)
  scriptSnapshots : Snapshots;
  getScriptSnapshot : string -> Env -> Snapshots -> option IScriptSnapshot * Snapshots;
  getCurrentDirectory : Env -> string;
  getDefaultLibFileName : CompilerOptions -> string;
  directoryExists : Env -> string -> bool;
  getDirectories : Env -> string -> list string;
  fileExists : Env -> string -> bool;
  readFile : Env -> string -> option string;
  readDirectory : Env -> string -> list string;
}.
End Defs.
End ts.

(** ** The graph-construction visitor as a program over its capabilities

    The visitor and the linkers reach the identifier counter only through
    the generator closure and the output sink only through the emitter.
    Their behaviour is a tree of these calls; [Outside update k] reads
    the environment [e], leaves it as [update e] and goes on as [k e].
    The options object they are handed they only read. *)
Inductive Visit {T : Types} (R : Type) : Type :=
| Return (r : R)
| Fault (e : Error)
| NextId (k : Id -> Visit R)
| Emit (element : Json) (k : Visit R)
| Outside (update : Env -> Env) (k : Env -> Visit R).

Arguments Return {T R} r.
Arguments Fault {T R} e.
Arguments NextId {T R} k.
Arguments Emit {T R} element k.
Arguments Outside {T R} update k.

(** The collaborators: Node.js, the TypeScript engine, and the modules of
    this package that the orchestrator imports. *)
Class External {T : Types} : Type := {
  (** Node.js *)
  process_cwd : Env -> string;
  path_resolve : Env -> string -> string;
  path_join : string -> string -> string;
  path_dirname : string -> string;
  path_posix_dirname : string -> string;
  path_isAbsolute : string -> bool;
  execSync : string -> Env -> Error + string;
  fs_openSync : string -> Env -> option Error;
  minimist : Env -> Options;
  (** the JavaScript engine: the message of a TypeError, and
      [Object.assign] on a target that is a boolean, a number, a string
      or an array: it makes an object of the target and assigns to it,
      which throws where the object does not take the property (an index
      or the length of a string, the length of an array); otherwise the
      call yields the object, here by what a reader of its properties
      finds *)
  TypeError : TypeErrorOf -> Error;
  Object_assign_other : Json -> gmap string Json -> Error + ts.Section_;
  (** typescript *)
  sys_directoryExists : Env -> string -> bool;
  sys_fileExists : Env -> string -> bool;
  sys_readFile : Env -> string -> option string;
  sys_getDirectories : Env -> string -> list string;
  sys_readDirectory : Env -> string -> list string;
  getDefaultLibFilePath : ts.CompilerOptions -> string;
  readConfigFile : Env -> string -> ts.ReadResult;
  parseJsonConfigFileContent : ts.Config -> string -> Env -> ts.ParsedCommandLine;
  parseCommandLine : list string -> ts.ParsedCommandLine;
  formatDiagnostics : list Diagnostic -> string;
  createLanguageService : ts.LanguageServiceHost -> LanguageService;
  getProgram : LanguageService -> Env -> option Program;
  getResolvedProjectReferences :
    Program -> option (list (option ts.ResolvedProjectReference));
  (** [./typescripts] *)
  getDefaultCompilerOptions : string -> gmap string Json;
  makeAbsolute : Env -> string -> string;
  (** [./typings] *)
  installTypings : string -> string -> list string -> Env -> Error + Env;
  guessTypings : string -> string -> Env -> Error + Env;
  (** [./lsif], [./linker], [./package], [./consts] *)
  lsif : LanguageService -> Options -> list ProjectInfo -> ImportLinker ->
         option ExportLinker -> option string -> Visit (option ProjectInfo);
  newImportLinker : string -> Visit ImportLinker;
  newExportLinker : string -> PackageJson -> Visit ExportLinker;
  PackageJson_read : string -> Env -> option PackageJson;
  toolVersion : string;
}.

(** ** Program state and completions *)

(** How a call ends: it returns, it throws (a rejected promise for an
    [async] function), or the recursion budget of the model ran out. *)
Inductive Completion (A : Type) : Type :=
| Normal (a : A)
| Throw (e : Error)
| OutOfFuel.
Arguments Normal {A} a.
Arguments Throw {A} e.
Arguments OutOfFuel {A}.

Section State.
Context {T : Types} {X : External}.

(** The state one run works on. [options] is the one options object
    every call shares; [counter] is the variable the identifier
    generator closes over; [output] is the text the writer has put into
    the output file. *)
Record World : Type := {
  env : Env;
  options : Options;
  counter : Z;
  exitCode : option Z;
  output : string;
  trace : list Event;
}.

Definition with_env (w : World) (e : Env) : World := {|
  env := e; options := options w; counter := counter w;
  exitCode := exitCode w; output := output w; trace := trace w |}.

Definition with_options (w : World) (o : Options) : World := {|
  env := env w; options := o; counter := counter w;
  exitCode := exitCode w; output := output w; trace := trace w |}.

Definition with_counter (w : World) (c : Z) : World := {|
  env := env w; options := options w; counter := c;
  exitCode := exitCode w; output := output w; trace := trace w |}.

Definition with_exitCode (w : World) (c : Z) : World := {|
  env := env w; options := options w; counter := counter w;
  exitCode := Some c; output := output w; trace := trace w |}.

Definition with_output (w : World) (s : string) : World := {|
  env := env w; options := options w; counter := counter w;
  exitCode := exitCode w; output := s; trace := trace w |}.

Definition log (w : World) (ev : Event) : World := {|
  env := env w; options := options w; counter := counter w;
  exitCode := exitCode w; output := output w; trace := trace w ++ [ev] |}.

Definition M (A : Type) : Type := World -> Completion A * World.

Definition ret {A} (a : A) : M A := fun w => (Normal a, w).

Definition bind {A B} (m : M A) (k : A -> M B) : M B :=
  fun w =>
    match m w with
    | (Normal a, w') => k a w'
    | (Throw e, w') => (Throw e, w')
    | (OutOfFuel, w') => (OutOfFuel, w')
    end.

Definition throw {A} (e : Error) : M A := fun w => (Throw e, w).

Definition out_of_fuel {A} : M A := fun w => (OutOfFuel, w).

Definition get_env : M Env := fun w => (Normal (env w), w).

Definition set_env (e : Env) : M unit := fun w => (Normal tt, with_env w e).

Definition get_options : M Options := fun w => (Normal (options w), w).

Definition set_options (o : Options) : M unit :=
  fun w => (Normal tt, with_options w o).

(** [process.exitCode = c] *)
Definition set_exitCode (c : Z) : M unit :=
  fun w => (Normal tt, with_exitCode w c).

Definition console_error (message : string) : M unit :=
  fun w => (Normal tt, log w (ConsoleError message)).

Definition console_log (message : string) : M unit :=
  fun w => (Normal tt, log w (ConsoleLog message)).

(** An operation of a collaborator that may fault and changes the
    environment. *)
Definition external (f : Env -> Error + Env) : M unit :=
  fun w =>
    match f (env w) with
    | inl e => (Throw e, w)
    | inr e' => (Normal tt, with_env w e')
    end.

End State.

Declare Scope lsif_scope.
Delimit Scope lsif_scope with lsif.
Notation "'let*' x ':=' c1 'in' c2" := (bind c1 (fun x => c2))
  (at level 10, x name, c1 at level 100, c2 at level 200) : lsif_scope.
Notation "c1 ';;;' c2" := (bind c1 (fun _ => c2))
  (at level 100, c2 at level 200, right associativity) : lsif_scope.
Local Open Scope lsif_scope.

(** ** The program *)

Section Program.
Context {T : Types} {X : External}.

(** *** Identifier generator ([createIdGenerator]) *)

(** [let counter = 1]: the generator's variable comes into being. *)
Definition createIdGenerator (options : Options) : M unit :=
  fun w => (Normal tt, with_counter w 1).

(** The closure [createIdGenerator] returns: [return counter++]. Every
    call is recorded in the trace with the identifier it returned. *)
Definition idGenerator : M Id :=
  fun w =>
    let id := counter w in
    (Normal id, log (with_counter w (id + 1)) (NextIdentifier id)).

(** *** Streaming emitter ([emitter.ts]) *)

(** Modelled from the spec: [writeln] of the writer in [./writer], the
    low-level file writer: the text goes to the end of the output file,
    followed by a line feed. *)
Definition writeln (data : string) : M unit :=
  fun w => (Normal tt, with_output w (output w +:+ data +:+ String Text.LF "")).

(** [emit] of the emitter that [create(writer)] returns. *)
Definition emit (element : Json) : M unit :=
  writeln (stringify element 0).

(** The visitor's program run against the shared generator and emitter. *)
Fixpoint runVisit {R : Type} (v : Visit R) : M R :=
  match v with
  | Return r => ret r
  | Fault e => throw e
  | NextId k =>
      let* id := idGenerator in
      runVisit (k id)
  | Emit element k =>
      emit element ;;;
      runVisit k
  | Outside update k =>
      let* e := get_env in
      set_env (update e) ;;;
      runVisit (k e)
  end.

(** *** Configuration loading ([loadConfigFile]) *)

(** [Object.assign(target, source)] on two property maps: the source's
    properties replace the target's. *)
Definition Object_assign (target source : gmap string Json) : gmap string Json :=
  source ∪ target.

(** [Object.assign(target, source)] on what a configuration holds under
    [compilerOptions]: [null] is a TypeError, an object takes the
    source's properties, and for any other value the engine decides. *)
Definition Object_assign_section (target : ts.Section_) (source : gmap string Json)
    : Error + ts.Section_ :=
  match target with
  | ts.SectionNull => inl (TypeError ConvertNullToObject)
  | ts.SectionObject properties => inr (ts.SectionObject (Object_assign properties source))
  | ts.SectionOther v => Object_assign_other v source
  end.

(** Lines 72 to 74: the forced defaults go into whatever the
    configuration holds under [compilerOptions], if it holds anything.
    Reading the property of a configuration that is [null] is a
    TypeError; a boolean, a number, a string and an array have no such
    property. *)
Definition forceDefaults (file : string) (config : ts.Config) : Error + ts.Config :=
  match config with
  | ts.ConfigNull => inl (TypeError (ReadPropertyOfNull "compilerOptions"))
  | ts.ConfigOther _ => inr config
  | ts.ConfigObject properties =>
      match ts.compilerOptions properties with
      | Some compilerOptions =>
          match Object_assign_section compilerOptions (getDefaultCompilerOptions file) with
          | inl fault => inl fault
          | inr assigned =>
              inr (ts.ConfigObject
                     {| ts.compilerOptions := Some assigned;
                        ts.otherProperties := ts.otherProperties properties |})
          end
      | None => inr config
      end
  end.

Definition loadConfigFile (file : string) : M ts.ParsedCommandLine :=
  let* e := get_env in
  let absolute := path_resolve e file in
  let readResult := readConfigFile e absolute in
  match ts.error readResult with
  | Some error => throw (formatDiagnostics [error])
  | None =>
      match forceDefaults file (ts.config readResult) with
      | inl fault => throw fault
      | inr config =>
          let result := parseJsonConfigFileContent config (path_dirname absolute) e in
          if Nat.ltb 0 (length (ts.errors result))
          then throw (formatDiagnostics (ts.errors result))
          else ret result
      end
  end.

(** *** The project host's snapshot cache ([getScriptSnapshot]) *)

(** [ts.ScriptSnapshot.fromString(content)]: a new object. *)
Definition fromString (content : string) (fresh : nat) : ts.IScriptSnapshot :=
  {| ts.ref := fresh; ts.getText := content |}.

Definition getScriptSnapshot (fileName : string) (e : Env)
    (scriptSnapshots : ts.Snapshots) : option ts.IScriptSnapshot * ts.Snapshots :=
  match ts.entries scriptSnapshots !! fileName with
  | Some result => (Some result, scriptSnapshots)
  | None =>
      if negb (sys_fileExists e fileName) then (None, scriptSnapshots)
      else
        match sys_readFile e fileName with
        | None => (None, scriptSnapshots)
        | Some content =>
            let result := fromString content (ts.allocated scriptSnapshots) in
            (Some result,
             {| ts.entries := <[fileName := result]> (ts.entries scriptSnapshots);
                ts.allocated := S (ts.allocated scriptSnapshots) |})
        end
  end.

(** Lines 132 to 177. *)
Definition createHost (tsconfigFileName : option string)
    (config : ts.ParsedCommandLine) : ts.LanguageServiceHost := {|
  ts.getScriptFileNames := fun _ => ts.fileNames config;
  ts.getCompilationSettings := fun _ => ts.options config;
  ts.getProjectReferences := fun _ => ts.projectReferences config;
  ts.getScriptVersion := fun _ => "0";
  ts.getProjectVersion := fun _ => "0";
  ts.scriptSnapshots := {| ts.entries := ∅; ts.allocated := 0 |};
  ts.getScriptSnapshot := getScriptSnapshot;
  ts.getCurrentDirectory := fun e =>
    match tsconfigFileName with
    | Some f => path_dirname f
    | None => process_cwd e
    end;
  ts.getDefaultLibFileName := getDefaultLibFilePath;
  ts.directoryExists := sys_directoryExists;
  ts.getDirectories := sys_getDirectories;
  ts.fileExists := sys_fileExists;
  ts.readFile := sys_readFile;
  ts.readDirectory := sys_readDirectory;
|}.

(** *** The project orchestrator ([processProject]) *)

(** A value the type checker has narrowed from [string | undefined] to
    [string]. *)
Definition narrowed (s : option string) : string := default "" s.

(** Lines 92 to 97: the configuration file a project path stands for. *)
Definition configFileOf (e : Env) (project : string) : string :=
  let projectPath := path_resolve e project in
  if sys_directoryExists e projectPath
  then path_join projectPath "tsconfig.json"
  else projectPath.

(** Lines 90 to 104. [None] is the early [return undefined]; otherwise
    the configuration file name, if any, and the configuration to go on
    with. An empty string is falsy, like [undefined]. *)
Definition resolveConfiguration (config : ts.ParsedCommandLine)
    : M (option (option string * ts.ParsedCommandLine)) :=
  match ts.project (ts.options config) with
  | Some project =>
      if String.eqb project "" then ret (Some (None, config))
      else
        let* e := get_env in
        let tsconfigFileName := configFileOf e project in
        if negb (sys_fileExists e tsconfigFileName) then
          console_error
            ("Project configuration file " +:+ tsconfigFileName +:+ " does not exist") ;;;
          set_exitCode 1 ;;;
          ret None
        else
          let* config' := loadConfigFile tsconfigFileName in
          ret (Some (Some tsconfigFileName, config'))
  | None => ret (Some (None, config))
  end.

(** [execSync(command).toString()]: the call is recorded, a failing
    command throws; the result is the text [toString] makes of the
    command's output. *)
Definition exec (command : string) : M string :=
  fun w =>
    let w' := log w (ExecSync command) in
    match execSync command (env w) with
    | inl e => (Throw e, w')
    | inr stdout => (Normal stdout, w')
    end.

(** Lines 112 to 120, on the shared options object. *)
Definition resolveRoots : M unit :=
  let* o := get_options in
  let* e := get_env in
  let o1 :=
    match projectRoot o with
    | None => Options.with_projectRoot o (Some (process_cwd e))
    | Some _ => o
    end in
  let o2 := Options.with_projectRoot o1 (Some (makeAbsolute e (narrowed (projectRoot o1)))) in
  set_options o2 ;;;
  let* o3 :=
    match repositoryRoot o2 with
    | None =>
        let* stdout := exec "git rev-parse --show-toplevel" in
        let o3 := Options.with_repositoryRoot o2 (Some (Text.trimRight stdout)) in
        set_options o3 ;;;
        ret o3
    | Some _ => ret o2
    end in
  set_options
    (Options.with_repositoryRoot o3 (Some (makeAbsolute e (narrowed (repositoryRoot o3))))).

(** Lines 122 to 129. *)
Definition inferTypingsStep (tsconfigFileName : option string)
    (config : ts.ParsedCommandLine) : M unit :=
  let* o := get_options in
  if inferTypings o then
    let* e := get_env in
    match ts.types (ts.options config) with
    | Some types =>
        let start :=
          match tsconfigFileName with
          | Some f => f
          | None => process_cwd e
          end in
        external (installTypings (narrowed (projectRoot o)) start types)
    | None =>
        external (guessTypings (narrowed (projectRoot o))
                    match tsconfigFileName with
                    | Some f => path_dirname f
                    | None => process_cwd e
                    end)
    end
  else ret tt.

(** What lines 90 to 184 hand to the rest of [processProject]. *)
Record Prepared : Type := {
  tsconfigFileName : option string;
  resolved : ts.ParsedCommandLine;
  languageService : LanguageService;
  program : Program;
}.

(** Lines 131 to 184. *)
Definition createProgram (tsconfigFileName : option string)
    (config : ts.ParsedCommandLine) : M (option Prepared) :=
  let host := createHost tsconfigFileName config in
  let languageService := createLanguageService host in
  let* e := get_env in
  match getProgram languageService e with
  | None =>
      console_error "Couldn't create language service with underlying program." ;;;
      set_exitCode (-1) ;;;
      ret None
  | Some program =>
      ret (Some {| tsconfigFileName := tsconfigFileName; resolved := config;
                   languageService := languageService; program := program |})
  end.

(** Lines 90 to 184: everything before the references are walked.
    [None] is an early [return undefined]. *)
Definition prepare (config : ts.ParsedCommandLine) : M (option Prepared) :=
  let* r := resolveConfiguration config in
  match r with
  | None => ret None
  | Some (tsconfigFileName, config') =>
      if Nat.eqb (length (ts.fileNames config')) 0 then
        console_error "No input files specified." ;;;
        set_exitCode 1 ;;;
        ret None
      else
        resolveRoots ;;;
        inferTypingsStep tsconfigFileName config' ;;;
        createProgram tsconfigFileName config'
  end.

(** [program.getResolvedProjectReferences()], with [if (references)]. *)
Definition referencesOf (p : Prepared)
    : list (option ts.ResolvedProjectReference) :=
  default [] (getResolvedProjectReferences (program p)).

(** Lines 188 to 195: the loop over the resolved references, with
    [dependsOn] as built so far; [recurse] is the recursive call. *)
Fixpoint processReferences
    (recurse : ts.ParsedCommandLine -> M (option ProjectInfo))
    (references : list (option ts.ResolvedProjectReference))
    (dependsOn : list ProjectInfo) : M (list ProjectInfo) :=
  match references with
  | [] => ret dependsOn
  | None :: rest => processReferences recurse rest dependsOn
  | Some reference :: rest =>
      let* projectInfo := recurse (ts.commandLine reference) in
      match projectInfo with
      | Some info => processReferences recurse rest (dependsOn ++ [info])
      | None => processReferences recurse rest dependsOn
      end
  end.

(** Lines 198 and 199: the visitor is called with the shared options
    object, generator and emitter. [program.getTypeChecker()] changes
    nothing the orchestrator can see. *)
Definition visit (p : Prepared) (dependsOn : list ProjectInfo)
    (importLinker : ImportLinker) (exportLinker : option ExportLinker)
    : M (option ProjectInfo) :=
  let* o := get_options in
  runVisit (lsif (languageService p) o dependsOn importLinker exportLinker
              (tsconfigFileName p)).

(** [processProject]. The recursion follows whatever references the
    engine resolves, so the model carries a budget of nested calls. *)
Fixpoint processProject (fuel : nat) (config : ts.ParsedCommandLine)
    (importLinker : ImportLinker) (exportLinker : option ExportLinker)
    {struct fuel} : M (option ProjectInfo) :=
  match fuel with
  | O => out_of_fuel
  | S fuel' =>
      let* p := prepare config in
      match p with
      | None => ret None
      | Some p =>
          let* dependsOn :=
            processReferences
              (fun commandLine => processProject fuel' commandLine importLinker exportLinker)
              (referencesOf p) [] in
          visit p dependsOn importLinker exportLinker
      end
  end.

(** *** The driver ([run]) *)

Definition longestId : nat :=
  fold_left (fun longest d => Nat.max longest (String.length (OptionDescription.id d)))
    Options.descriptions 0%nat.

Definition usageLine (d : OptionDescription.t) : string :=
  let id := OptionDescription.id d in
  let pad := Text.repeat_space (longestId - String.length id) in
  match OptionDescription.alias d with
  | Some alias => "  -" +:+ alias +:+ " --" +:+ id +:+ pad +:+ " " +:+ OptionDescription.description d
  | None => "  --" +:+ id +:+ "   " +:+ pad +:+ " " +:+ OptionDescription.description d
  end.

Definition usage : string :=
  String.concat (String Text.LF "")
    (["Language Server Index Format tool for TypeScript";
      "Version: " +:+ toolVersion;
      "";
      "Usage: lsif-tsc [options][tsc options]";
      "";
      "Options"] ++ List.map usageLine Options.descriptions).

(** [new FileWriter(fs.openSync(options.out, 'w'))]: the output file is
    created or truncated; a file that cannot be opened throws. *)
Definition openWriter (file : string) : M unit :=
  fun w =>
    match fs_openSync file (env w) with
    | Some e => (Throw e, w)
    | None => (Normal tt, with_output w "")
    end.

(** Lines 267 to 272: the linkers are built, once, and the root project
    is processed with them. *)
Definition linkAndProcess (fuel : nat) (config : ts.ParsedCommandLine)
    (projectRoot : string) (packageJson : option PackageJson) : M unit :=
  let* importLinker := runVisit (newImportLinker projectRoot) in
  let* exportLinker :=
    match packageJson with
    | Some manifest =>
        let* linker := runVisit (newExportLinker projectRoot manifest) in
        ret (Some linker)
    | None => ret None
    end in
  processProject fuel config importLinker exportLinker ;;;
  ret tt.

(** [run], from the parsed options on: [minimist] stands for the options
    object that [Object.assign(Options.defaults, minimist(...))] yields. *)
Definition run (fuel : nat) (args : list string) : M unit :=
  let* e := get_env in
  let o := minimist e in
  set_options o ;;;
  if version o then console_log toolVersion
  else if help o then console_log usage
  else
    let packageFile := makeAbsolute e "package.json" in
    let packageJson := PackageJson_read packageFile e in
    let projectRoot :=
      match projectRoot o with
      | Some r => Some r
      | None =>
          let r := path_posix_dirname packageFile in
          Some (if path_isAbsolute r then r else makeAbsolute e r)
      end in
    match projectRoot with
    | None => set_exitCode (-1)
    | Some projectRoot =>
        openWriter (out o) ;;;
        let config := parseCommandLine args in
        createIdGenerator o ;;;
        linkAndProcess fuel config projectRoot packageJson
    end.

(** The module's last statement: a rejected [run] is reported. *)
Definition script (fuel : nat) (args : list string) : M unit :=
  fun w =>
    match run fuel args w with
    | (Throw error, w') =>
        (Normal tt, with_exitCode (log w' (ConsoleError error)) 1)
    | done => done
    end.

(** [main], as exported. *)
Definition main (fuel : nat) (args : list string) : M unit := run fuel args.

End Program.

(** ** Sequences of calls, and what a trace shows *)

Section Scenarios.
Context {T : Types} {X : External}.

(** [n] successive calls of the generator and what they return. *)
Fixpoint draw (n : nat) : M (list Id) :=
  match n with
  | O => ret []
  | S n' =>
      let* id := idGenerator in
      let* ids := draw n' in
      ret (id :: ids)
  end.

(** Successive calls of [emit], one per element. *)
Fixpoint emitAll (elements : list Json) : M unit :=
  match elements with
  | [] => ret tt
  | element :: rest => bind (emit element) (fun _ => emitAll rest)
  end.

(** A host serving a sequence of snapshot requests, each under the file
    system of its moment. *)
Fixpoint serve (requests : list (string * Env)) (scriptSnapshots : ts.Snapshots)
    : list (option ts.IScriptSnapshot) * ts.Snapshots :=
  match requests with
  | [] => ([], scriptSnapshots)
  | (fileName, e) :: rest =>
      let (result, scriptSnapshots') := getScriptSnapshot fileName e scriptSnapshots in
      let (results, final) := serve rest scriptSnapshots' in
      (result :: results, final)
  end.

(** The recursive calls for the references that are present, one after
    the other in the order of the list, each from the state the one
    before left: what each returned, and the state after the last.
    [None] when one of the calls does not return. *)
Fixpoint analyses
    (recurse : ts.ParsedCommandLine -> M (option ProjectInfo))
    (references : list (option ts.ResolvedProjectReference)) (w : World)
    : option (list (option ProjectInfo) * World) :=
  match references with
  | [] => Some ([], w)
  | None :: rest => analyses recurse rest w
  | Some reference :: rest =>
      match recurse (ts.commandLine reference) w with
      | (Normal outcome, w') =>
          match analyses recurse rest w' with
          | Some (outcomes, final) => Some (outcome :: outcomes, final)
          | None => None
          end
      | _ => None
      end
  end.

End Scenarios.

(** The identifiers a trace hands out, in order. *)
Fixpoint identifiers (t : list Event) : list Id :=
  match t with
  | [] => []
  | NextIdentifier id :: t' => id :: identifiers t'
  | _ :: t' => identifiers t'
  end.

(** How often a trace calls a child process. *)
Fixpoint executions (t : list Event) : nat :=
  match t with
  | [] => 0
  | ExecSync _ :: t' => S (executions t')
  | _ :: t' => executions t'
  end.

(** ** Relations between the states of a run *)

Section Relations.
Context {T : Types} {X : External}.

(** [m] takes every state [w] to a state related to [w] by [R] when it
    returns, and by [Q] when it throws or the budget runs out. *)
Definition preserves {A : Type} (R Q : World -> World -> Prop) (m : M A) : Prop :=
  forall w,
    match m w with
    | (Normal _, w') => R w w'
    | (_, w') => Q w w'
    end.

(** From [w] to [w'] the trace has grown, and the identifiers handed out
    on the way are the integers from the counter of [w] up to, and not
    including, the counter of [w']. *)
Definition counts (w w' : World) : Prop :=
  counter w <= counter w' /\
  exists t, trace w' = trace w ++ t /\
            identifiers t = seqZ (counter w) (counter w' - counter w).

(** Steps that hand out no identifier. *)
Definition silent (w w' : World) : Prop :=
  counter w' = counter w /\
  exists t, trace w' = trace w ++ t /\ identifiers t = [].

(** Both roots are there and [makeAbsolute] leaves them as they are. *)
Definition settled (o : Options) : Prop :=
  exists pr rr,
    projectRoot o = Some pr /\ repositoryRoot o = Some rr /\
    (forall e, makeAbsolute e pr = pr) /\ (forall e, makeAbsolute e rr = rr).

(** From settled roots on, the options stay and no child process runs. *)
Definition stable (w w' : World) : Prop :=
  settled (options w) ->
  options w' = options w /\
  exists t, trace w' = trace w ++ t /\ executions t = 0%nat.

(** At most one child process, and none once the repository root is
    there. *)
Definition once (w w' : World) : Prop :=
  exists t, trace w' = trace w ++ t /\
    (executions t <= 1)%nat /\
    (is_Some (repositoryRoot (options w)) ->
     is_Some (repositoryRoot (options w')) /\ executions t = 0%nat) /\
    (executions t = 1%nat -> is_Some (repositoryRoot (options w'))).

Definition once_abrupt (w w' : World) : Prop :=
  exists t, trace w' = trace w ++ t /\
    (executions t <= 1)%nat /\
    (is_Some (repositoryRoot (options w)) -> executions t = 0%nat).

End Relations.

(** ** Further observations on the output and the exit code *)

(** Complete lines, one after the other. *)
Fixpoint unlines (ls : list string) : string :=
  match ls with
  | [] => ""
  | l :: ls' => l +:+ String Text.LF (unlines ls')
  end.

(** The control characters, U+0000 to U+001F. *)
Definition is_control (c : ascii) : bool := Nat.ltb (nat_of_ascii c) 32.

Fixpoint has_control (s : string) : bool :=
  match s with
  | EmptyString => false
  | String c s' => is_control c || has_control s'
  end.

Section MoreRelations.
Context {T : Types} {X : External}.

(** The output has grown by complete lines. *)
Definition appends (w w' : World) : Prop :=
  exists ls, output w' = output w +:+ unlines ls /\
             Forall (fun l => Text.has_lf l = false) ls.



(** The exit code says that something went wrong. *)
Definition failing (w : World) : Prop :=
  exists c, exitCode w = Some c /\ c <> 0.

Definition stays_failing (w w' : World) : Prop := failing w -> failing w'.

(** Nothing written, no identifier drawn. *)
Definition quiet (w w' : World) : Prop :=
  output w' = output w /\ counter w' = counter w /\
  exists t, trace w' = trace w ++ t.

(** With typings inference off, the environment is left alone. *)
Definition untouched (w w' : World) : Prop :=
  inferTypings (options w) = false ->
  env w' = env w /\ inferTypings (options w') = false.

(** The options are as before, but for the two roots. *)
Definition same_settings (w w' : World) : Prop :=
  help (options w') = help (options w) /\
  version (options w') = version (options w) /\
  addContents (options w') = addContents (options w) /\
  inferTypings (options w') = inferTypings (options w) /\
  out (options w') = out (options w).

End MoreRelations.

(** * A small repository to run the program on *)

Module Demo.

(** A configuration file on disk. *)
Record ConfigFile : Type := {
  section_ : option ts.Section_;
  files : list string;
  references : list string;
}.

(** The file system: configuration files by path, source files with
    their content, and the directories. *)
Record FileSystem : Type := {
  configs : list (string * ConfigFile);
  sources : list (string * string);
  directories : list string;
}.

Fixpoint assoc {A : Type} (key : string) (l : list (string * A)) : option A :=
  match l with
  | [] => None
  | (k, a) :: l' => if String.eqb k key then Some a else assoc key l'
  end.

Definition contains (key : string) (l : list string) : bool :=
  existsb (String.eqb key) l.

Definition starts_with_slash (p : string) : bool :=
  match p with
  | String c _ => Ascii.eqb c "/"
  | EmptyString => false
  end.

Fixpoint dirname_go (s : string) : option string :=
  match s with
  | EmptyString => None
  | String c s' =>
      match dirname_go s' with
      | Some d => Some (String c d)
      | None => if Ascii.eqb c "/" then Some EmptyString else None
      end
  end.

Definition dirname (s : string) : string :=
  match dirname_go s with
  | Some EmptyString => "/"
  | Some d => d
  | None => "."
  end.

Definition absolute (p : string) : string :=
  if starts_with_slash p then p else "/repo/" +:+ p.

#[local] Instance types : Types := {|
  Env := FileSystem;
  Diagnostic := string;
  (** the resolved references: file names and declared references *)
  Program := list (option (list string * list string));
  (** the declared references *)
  LanguageService := list string;
  ImportLinker := unit;
  ExportLinker := unit;
  PackageJson := unit;
  (** an identifier and the identifiers of the dependencies *)
  ProjectInfo := Z * list Z;
|}.

Definition strings (v : option Json) : list string :=
  match v with
  | Some (JArray l) =>
      omap (fun x => match x with JString s => Some s | _ => None end) l
  | _ => []
  end.

Definition commandLineOf (fileNames refs : list string) : ts.ParsedCommandLine := {|
  ts.options := {| ts.project := None; ts.types := None; ts.settings := ∅ |};
  ts.fileNames := fileNames;
  ts.projectReferences := Some (List.map (fun p => {| ts.path := p |}) refs);
  ts.errors := [];
|}.

Definition settingsOf (value : option ts.Section_) : gmap string Json :=
  match value with
  | Some (ts.SectionObject properties) => properties
  | _ => ∅
  end.

Definition vertex (id : Z) (label : string) : Json :=
  JObject [("id", JNumber id); ("type", JString "vertex"); ("label", JString label)].

#[local] Instance external : External := {|
  process_cwd := fun _ => "/repo";
  path_resolve := fun _ p => absolute p;
  path_join := fun a b => a +:+ "/" +:+ b;
  path_dirname := dirname;
  path_posix_dirname := dirname;
  path_isAbsolute := starts_with_slash;
  execSync := fun _ _ => inr ("/repo" +:+ String Text.LF "");
  fs_openSync := fun _ _ => None;
  minimist := fun _ => Options.defaults;
  TypeError := fun what =>
    match what with
    | ReadPropertyOfNull property =>
        "TypeError: Cannot read property '" +:+ property +:+ "' of null"
    | ConvertNullToObject => "TypeError: Cannot convert undefined or null to object"
    end;
  Object_assign_other := fun _ source => inr (ts.SectionObject source);
  sys_directoryExists := fun e p => contains p (directories e);
  sys_fileExists := fun e p =>
    (match assoc p (configs e) with Some _ => true | None => false end
     || match assoc p (sources e) with Some _ => true | None => false end)%bool;
  sys_readFile := fun e p => assoc p (sources e);
  sys_getDirectories := fun e _ => directories e;
  sys_readDirectory := fun e _ => List.map fst (sources e);
  getDefaultLibFilePath := fun _ => "/lib/lib.d.ts";
  readConfigFile := fun e p =>
    match assoc p (configs e) with
    | Some c =>
        {| ts.config :=
             ts.ConfigObject
               {| ts.compilerOptions := section_ c;
                  ts.otherProperties :=
                    [("files", JArray (List.map JString (files c)));
                     ("references", JArray (List.map JString (references c)))] |};
           ts.error := None |}
    | None =>
        {| ts.config :=
             ts.ConfigObject {| ts.compilerOptions := None; ts.otherProperties := [] |};
           ts.error := Some ("Cannot read file " +:+ p) |}
    end;
  parseJsonConfigFileContent := fun config _ _ =>
    match config with
    | ts.ConfigObject raw =>
        {| ts.options :=
             {| ts.project := None; ts.types := None;
                ts.settings := settingsOf (ts.compilerOptions raw) |};
           ts.fileNames := strings (assoc "files" (ts.otherProperties raw));
           ts.projectReferences :=
             Some (List.map (fun p => {| ts.path := p |})
                     (strings (assoc "references" (ts.otherProperties raw))));
           ts.errors := [] |}
    | _ =>
        {| ts.options := {| ts.project := None; ts.types := None; ts.settings := ∅ |};
           ts.fileNames := [];
           ts.projectReferences := None;
           ts.errors := ["The root value of a configuration file must be an object"] |}
    end;
  parseCommandLine := fun args => commandLineOf args [];
  formatDiagnostics := String.concat "; ";
  createLanguageService := fun host =>
    List.map ts.path (default [] (ts.getProjectReferences host tt));
  getProgram := fun service e =>
    Some (List.map (fun p =>
                      match assoc (p +:+ "/tsconfig.json") (configs e) with
                      | Some c => Some (files c, references c)
                      | None => None
                      end) service);
  getResolvedProjectReferences := fun program =>
    Some (List.map (option_map (fun fr =>
                      {| ts.commandLine := commandLineOf (fst fr) (snd fr) |}))
            program);
  getDefaultCompilerOptions := fun _ => {["noEmit" := JBool true]};
  makeAbsolute := fun _ p => absolute p;
  installTypings := fun _ _ _ e => inr e;
  guessTypings := fun _ _ e => inr e;
  lsif := fun service o dependsOn _ _ _ =>
    NextId (fun project =>
    Emit (vertex project "project")
    (NextId (fun document =>
    Emit (vertex document "document")
    (Return (Some (project, List.map fst dependsOn))))));
  newImportLinker := fun _ => Return tt;
  newExportLinker := fun _ _ => Return tt;
  PackageJson_read := fun _ _ => None;
  toolVersion := "0.5.4";
|}.

(** A root project that refers to a library, to a project without
    files and to a project that is not there. *)
Definition disk : FileSystem := {|
  configs :=
    [("/repo/lib/tsconfig.json",
      {| section_ :=
           Some (ts.SectionObject {["strict" := JBool true; "noEmit" := JBool false]});
         files := ["/repo/lib/b.ts"]; references := [] |});
     ("/repo/empty/tsconfig.json",
      {| section_ := None; files := []; references := [] |});
     ("/repo/bare/tsconfig.json",
      {| section_ := None; files := ["/repo/bare/c.ts"]; references := [] |});
     ("/repo/void/tsconfig.json",
      {| section_ := Some ts.SectionNull; files := ["/repo/void/d.ts"];
         references := [] |})];
  sources :=
    [("/repo/a.ts", "export const a = 1"); ("/repo/lib/b.ts", "export const b = 2");
     ("/repo/bare/c.ts", "export const c = 3")];
  directories := ["/repo"; "/repo/lib"; "/repo/empty"; "/repo/bare"];
|}.

Definition start : World := {|
  env := disk;
  options := Options.defaults;
  counter := 1;
  exitCode := None;
  output := "";
  trace := [];
|}.

Definition root : ts.ParsedCommandLine :=
  commandLineOf ["/repo/a.ts"] ["/repo/lib"; "/repo/empty"; "/repo/gone"].

(** What [processProject] has in hand for the root project when it
    reaches its loop: the library resolved with one file, the empty
    project resolved with none, the third reference not resolved. *)
Definition prepared : Prepared := {|
  tsconfigFileName := None;
  resolved := root;
  languageService := ["/repo/lib"; "/repo/empty"; "/repo/gone"];
  program := [Some (["/repo/lib/b.ts"], []); Some ([], []); None];
|}.

Definition atLoop : World := snd (prepare root start).

Definition nested : ts.ParsedCommandLine -> M (option ProjectInfo) :=
  fun c => processProject 2 c tt None.

Definition afterLoop : World :=
  snd (processReferences nested (referencesOf prepared) [] atLoop).

Definition atEnd : World := snd (visit prepared [(1, [])] tt None afterLoop).

Definition emptyMap : ts.Snapshots := {| ts.entries := ∅; ts.allocated := 0 |}.

(** The disk after [a.ts] has been rewritten and [lib/b.ts] removed. *)
Definition later : FileSystem := {|
  configs := configs disk;
  sources := [("/repo/a.ts", "export const a = 100"); ("/repo/new.ts", "export {}")];
  directories := directories disk;
|}.

Definition firstRead : ts.IScriptSnapshot :=
  {| ts.ref := 0; ts.getText := "export const a = 1" |}.

Definition pointsTo (project : string) : ts.ParsedCommandLine := {|
  ts.options := {| ts.project := Some project; ts.types := None; ts.settings := ∅ |};
  ts.fileNames := [];
  ts.projectReferences := None;
  ts.errors := [];
|}.

End Demo.

(** * The same repository in other circumstances *)

Module Variants.

(** [Demo] with another outcome of the version-control tool, of opening
    the output file, and other options on the command line. *)
Definition variant (git : Error + string) (opening : option Error)
    (asked : Options) (leavesFault : bool) : @External Demo.types := {|
  process_cwd := @process_cwd Demo.types Demo.external;
  path_resolve := @path_resolve Demo.types Demo.external;
  path_join := @path_join Demo.types Demo.external;
  path_dirname := @path_dirname Demo.types Demo.external;
  path_posix_dirname := @path_posix_dirname Demo.types Demo.external;
  path_isAbsolute := @path_isAbsolute Demo.types Demo.external;
  execSync := fun _ _ => git;
  fs_openSync := fun _ _ => opening;
  minimist := fun _ => asked;
  TypeError := @TypeError Demo.types Demo.external;
  Object_assign_other := @Object_assign_other Demo.types Demo.external;
  sys_directoryExists := @sys_directoryExists Demo.types Demo.external;
  sys_fileExists := @sys_fileExists Demo.types Demo.external;
  sys_readFile := @sys_readFile Demo.types Demo.external;
  sys_getDirectories := @sys_getDirectories Demo.types Demo.external;
  sys_readDirectory := @sys_readDirectory Demo.types Demo.external;
  getDefaultLibFilePath := @getDefaultLibFilePath Demo.types Demo.external;
  readConfigFile := @readConfigFile Demo.types Demo.external;
  parseJsonConfigFileContent := @parseJsonConfigFileContent Demo.types Demo.external;
  parseCommandLine := @parseCommandLine Demo.types Demo.external;
  formatDiagnostics := @formatDiagnostics Demo.types Demo.external;
  createLanguageService := @createLanguageService Demo.types Demo.external;
  getProgram := @getProgram Demo.types Demo.external;
  getResolvedProjectReferences := @getResolvedProjectReferences Demo.types Demo.external;
  getDefaultCompilerOptions := @getDefaultCompilerOptions Demo.types Demo.external;
  makeAbsolute := @makeAbsolute Demo.types Demo.external;
  installTypings := @installTypings Demo.types Demo.external;
  guessTypings := @guessTypings Demo.types Demo.external;
  lsif := fun service o dependsOn iL eL f =>
    match service with
    | [] => if leavesFault then Fault "visitor failed"
            else @lsif Demo.types Demo.external service o dependsOn iL eL f
    | _ => @lsif Demo.types Demo.external service o dependsOn iL eL f
    end;
  newImportLinker := @newImportLinker Demo.types Demo.external;
  newExportLinker := @newExportLinker Demo.types Demo.external;
  PackageJson_read := @PackageJson_read Demo.types Demo.external;
  toolVersion := @toolVersion Demo.types Demo.external;
|}.

(** No version-control checkout around, and an output file that cannot
    be opened. *)
Definition faulty : @External Demo.types :=
  variant (inl "fatal: not a git repository") (Some "EACCES: permission denied")
    Options.defaults false.

Definition helpAsked : Options := {|
  help := true; version := false; projectRoot := None; repositoryRoot := None;
  addContents := false; inferTypings := false; out := "dump.lsif" |}.

(** [--help] on the command line. *)
Definition asking : @External Demo.types :=
  variant (inr "/repo") None helpAsked false.

(** A visitor that faults on a project without references of its own. *)
Definition brittle : @External Demo.types :=
  variant (inr "/repo") None Options.defaults true.

(** A state in which an earlier project has already failed. *)
Definition failed : @World Demo.types := with_exitCode Demo.start 1.

(** The repository root given on the command line. *)
Definition rooted : @World Demo.types :=
  with_options Demo.start
    (Options.with_repositoryRoot Options.defaults (Some "/elsewhere")).

(** The root project under the brittle visitor: the state at its loop,
    its first reference, and the state in which the visitor faults. *)
Definition brittleAtLoop : @World Demo.types :=
  snd (@prepare Demo.types brittle Demo.root Demo.start).

Definition library : @ts.ResolvedProjectReference Demo.types :=
  {| ts.commandLine := Demo.commandLineOf ["/repo/lib/b.ts"] [] |}.

Definition brittleAtFault : @World Demo.types :=
  snd (@processProject Demo.types brittle 2 (ts.commandLine library) tt None
         brittleAtLoop).

End Variants.

(** * Properties *)

(** ** Text *)

Module TextFacts.
Import Text.

Lemma append_cons c (a b : string) : String c a +:+ b = String c (a +:+ b).
Proof. reflexivity. Qed.

Lemma append_nil_l (a : string) : "" +:+ a = a.
Proof. reflexivity. Qed.

Lemma append_nil_r (a : string) : a +:+ "" = a.
Proof.
  induction a as [|c a IH]; [reflexivity|].
  rewrite append_cons, IH. reflexivity.
Qed.

Lemma append_assoc (a b c : string) : (a +:+ b) +:+ c = a +:+ (b +:+ c).
Proof.
  induction a as [|x a IH]; [reflexivity|].
  rewrite !append_cons, IH. reflexivity.
Qed.

Lemma has_lf_app a b : has_lf (a +:+ b) = (has_lf a || has_lf b)%bool.
Proof.
  induction a as [|c a IH]; [reflexivity|].
  rewrite append_cons. simpl. rewrite IH. apply orb_assoc.
Qed.

(** A text without line feed, followed by a line feed, is one line. *)
Lemma lines_from_line cur l rest :
  has_lf l = false ->
  lines_from cur (l +:+ String LF rest) = (cur +:+ l) :: lines_from "" rest.
Proof.
  revert cur. induction l as [|c l IH]; intros cur Hl.
  - rewrite append_nil_l, append_nil_r. reflexivity.
  - simpl in Hl. apply orb_false_iff in Hl as [Hc Hl].
    rewrite append_cons. simpl. rewrite Hc.
    rewrite IH by assumption. rewrite append_assoc. reflexivity.
Qed.

Lemma lines_from_app_terminated cur s t :
  lines_from cur (s +:+ String LF t)
  = lines_from cur (s +:+ String LF "") ++ lines_from "" t.
Proof.
  revert cur. induction s as [|c s IH]; intros cur.
  - reflexivity.
  - rewrite !append_cons. simpl.
    destruct (is_lf c); [simpl; f_equal|]; apply IH.
Qed.

Lemma lines_app_terminated s t :
  terminated s -> lines (s +:+ t) = lines s ++ lines t.
Proof.
  intros [->|[s' ->]]; [reflexivity|].
  unfold lines. rewrite append_assoc.
  change (String LF "" +:+ t) with (String LF t).
  apply lines_from_app_terminated.
Qed.

Lemma lines_single l : has_lf l = false -> lines (l +:+ String LF "") = [l].
Proof. intros H. unfold lines. rewrite lines_from_line by assumption. reflexivity. Qed.

Lemma terminated_app_line s l : terminated (s +:+ l +:+ String LF "").
Proof. right. exists (s +:+ l). now rewrite append_assoc. Qed.

End TextFacts.

(** ** Relations every step of a run preserves *)

Section Preservation.
Context {T : Types} {X : External}.

Lemma preserves_snd {A} (R : World -> World -> Prop) (m : M A) :
  preserves R R m -> forall w, R w (snd (m w)).
Proof. intros H w. specialize (H w). destruct (m w) as [[a|e|] w']; exact H. Qed.

Lemma preserves_of_snd {A} (R : World -> World -> Prop) (m : M A) :
  (forall w, R w (snd (m w))) -> preserves R R m.
Proof. intros H w. specialize (H w). destruct (m w) as [[a|e|] w']; exact H. Qed.

Variables R Q : World -> World -> Prop.
Hypothesis R_refl : forall w, R w w.
Hypothesis R_trans : forall w1 w2 w3, R w1 w2 -> R w2 w3 -> R w1 w3.
Hypothesis Q_refl : forall w, Q w w.
Hypothesis RQ_trans : forall w1 w2 w3, R w1 w2 -> Q w2 w3 -> Q w1 w3.

Lemma preserves_ret {A} (a : A) : preserves R Q (ret a).
Proof using R_refl. intros w. apply R_refl. Qed.

Lemma preserves_throw {A} (e : Error) : preserves R Q (throw (A:=A) e).
Proof using Q_refl. intros w. apply Q_refl. Qed.

Lemma preserves_out_of_fuel {A} : preserves R Q (out_of_fuel (A:=A)).
Proof using Q_refl. intros w. apply Q_refl. Qed.

Lemma preserves_bind {A B} (m : M A) (k : A -> M B) :
  preserves R Q m -> (forall a, preserves R Q (k a)) -> preserves R Q (bind m k).
Proof using R_trans RQ_trans.
  intros Hm Hk w. unfold bind. specialize (Hm w).
  destruct (m w) as [[a|e|] w1]; try assumption.
  specialize (Hk a w1). destruct (k a w1) as [[b|e|] w2]; eauto.
Qed.

Lemma preserves_get_env : preserves R Q get_env.
Proof using R_refl. intros w. apply R_refl. Qed.

Lemma preserves_get_options : preserves R Q get_options.
Proof using R_refl. intros w. apply R_refl. Qed.

(** The steps that change the state. *)
Hypothesis R_console_error : forall w m, R w (log w (ConsoleError m)).
Hypothesis R_exitCode : forall w c, R w (with_exitCode w c).
Hypothesis R_env : forall w e, R w (with_env w e).
Hypothesis R_output : forall w s, R w (with_output w s).
Hypothesis R_next :
  forall w, R w (log (with_counter w (counter w + 1)) (NextIdentifier (counter w))).
Hypothesis R_roots : preserves R Q resolveRoots.

Lemma preserves_console_error m : preserves R Q (console_error m).
Proof using R_console_error. intros w. apply R_console_error. Qed.

Lemma preserves_set_exitCode c : preserves R Q (set_exitCode c).
Proof using R_exitCode. intros w. apply R_exitCode. Qed.

Lemma preserves_external f : preserves R Q (external f).
Proof using Q_refl R_env.
  intros w. unfold external. destruct (f (env w)); auto.
Qed.

Lemma preserves_idGenerator : preserves R Q idGenerator.
Proof using R_next. intros w. apply R_next. Qed.

Lemma preserves_emit element : preserves R Q (emit element).
Proof using R_output. intros w. apply R_output. Qed.

Lemma preserves_runVisit {A} (v : Visit A) : preserves R Q (runVisit v).
Proof using R_refl R_trans Q_refl RQ_trans R_env R_output R_next.
  induction v as [r|e|k IH|element k IH|update k IH]; cbn [runVisit].
  - apply preserves_ret.
  - apply preserves_throw.
  - apply preserves_bind; [apply preserves_idGenerator | exact IH].
  - apply preserves_bind; [apply preserves_emit | intros _; exact IH].
  - apply preserves_bind; [apply preserves_get_env|]. intros e.
    apply preserves_bind; [|intros _; apply IH].
    intros w. apply R_env.
Qed.

(** Loading a configuration file only reads. *)
Lemma loadConfigFile_reads file w : snd (loadConfigFile file w) = w.
Proof.
  unfold loadConfigFile, bind, get_env. simpl.
  destruct (ts.error _); [reflexivity|].
  destruct (forceDefaults _ _); [reflexivity|].
  destruct (Nat.ltb _ _); reflexivity.
Qed.

Lemma preserves_loadConfigFile file : preserves R Q (loadConfigFile file).
Proof using R_refl Q_refl.
  intros w. pose proof (loadConfigFile_reads file w) as E.
  destruct (loadConfigFile file w) as [[a|e|] w']; simpl in E; subst w'; auto.
Qed.

Create HintDb preserving.
Local Hint Resolve preserves_ret preserves_throw preserves_get_env
  preserves_get_options preserves_console_error preserves_set_exitCode
  preserves_external preserves_idGenerator preserves_emit preserves_runVisit
  preserves_loadConfigFile preserves_out_of_fuel : preserving.

Ltac preserving :=
  repeat first
    [ solve [auto with preserving]
    | apply preserves_bind; [|intros ?] ].

Lemma preserves_resolveConfiguration config :
  preserves R Q (resolveConfiguration config).
Proof using R_refl R_trans Q_refl RQ_trans R_console_error R_exitCode.
  unfold resolveConfiguration.
  destruct (ts.project _) as [project|]; [|preserving].
  destruct (String.eqb _ _); [preserving|].
  apply preserves_bind; [preserving|]. intros e.
  destruct (negb _); preserving.
Qed.

Lemma preserves_inferTypingsStep f config :
  preserves R Q (inferTypingsStep f config).
Proof using R_refl R_trans Q_refl RQ_trans R_env.
  unfold inferTypingsStep.
  apply preserves_bind; [preserving|]. intros o.
  destruct (inferTypings o); [|preserving].
  apply preserves_bind; [preserving|]. intros e.
  destruct (ts.types _); preserving.
Qed.

Lemma preserves_createProgram f config : preserves R Q (createProgram f config).
Proof using R_refl R_trans RQ_trans R_console_error R_exitCode.
  unfold createProgram.
  apply preserves_bind; [preserving|]. intros e.
  destruct (getProgram _ _); preserving.
Qed.

Lemma preserves_prepare config : preserves R Q (prepare config).
Proof using R_refl R_trans Q_refl RQ_trans R_console_error R_exitCode R_env R_roots.
  unfold prepare.
  apply preserves_bind; [apply preserves_resolveConfiguration|].
  intros [[f config']|]; [|preserving].
  destruct (Nat.eqb _ _); [preserving|].
  apply preserves_bind; [exact R_roots|]. intros _.
  apply preserves_bind; [apply preserves_inferTypingsStep|]. intros _.
  apply preserves_createProgram.
Qed.

Lemma preserves_processReferences recurse references dependsOn :
  (forall c, preserves R Q (recurse c)) ->
  preserves R Q (processReferences recurse references dependsOn).
Proof using R_refl R_trans RQ_trans.
  intros Hrec. revert dependsOn.
  induction references as [|[reference|] rest IH]; intros dependsOn;
    cbn [processReferences].
  - preserving.
  - apply preserves_bind; [apply Hrec|]. intros [info|]; apply IH.
  - apply IH.
Qed.

Lemma preserves_visit p dependsOn iL eL : preserves R Q (visit p dependsOn iL eL).
Proof using R_refl R_trans Q_refl RQ_trans R_env R_output R_next.
  unfold visit. preserving.
Qed.

Lemma preserves_processProject fuel config iL eL :
  preserves R Q (processProject fuel config iL eL).
Proof using R_refl R_trans Q_refl RQ_trans R_console_error R_exitCode R_env
  R_output R_next R_roots.
  revert config. induction fuel as [|fuel IH]; intros config; cbn [processProject].
  - preserving.
  - apply preserves_bind; [apply preserves_prepare|].
    intros [p|]; [|preserving].
    apply preserves_bind; [|intros deps; apply preserves_visit].
    apply preserves_processReferences. intros c. apply IH.
Qed.

Lemma preserves_linkAndProcess fuel config projectRoot packageJson :
  preserves R Q (linkAndProcess fuel config projectRoot packageJson).
Proof using R_refl R_trans Q_refl RQ_trans R_console_error R_exitCode R_env
  R_output R_next R_roots.
  unfold linkAndProcess.
  apply preserves_bind; [preserving|]. intros importLinker.
  apply preserves_bind; [destruct packageJson; preserving|]. intros exportLinker.
  apply preserves_bind; [apply preserves_processProject | preserving].
Qed.

End Preservation.

(** ** Identifiers *)

Lemma identifiers_app t1 t2 : identifiers (t1 ++ t2) = identifiers t1 ++ identifiers t2.
Proof.
  induction t1 as [|ev t1 IH]; [reflexivity|].
  destruct ev; simpl; rewrite IH; reflexivity.
Qed.

Section Identifiers.
Context {T : Types} {X : External}.

Lemma counts_refl w : counts w w.
Proof.
  split; [lia|]. exists []. split; [now rewrite app_nil_r|].
  rewrite Z.sub_diag. reflexivity.
Qed.

Lemma counts_trans w1 w2 w3 : counts w1 w2 -> counts w2 w3 -> counts w1 w3.
Proof.
  intros [H12 [t [Ht Hi]]] [H23 [t' [Ht' Hi']]].
  split; [lia|]. exists (t ++ t'). split.
  - rewrite Ht', Ht, app_assoc. reflexivity.
  - rewrite identifiers_app, Hi, Hi'.
    replace (counter w3 - counter w1)
      with ((counter w2 - counter w1) + (counter w3 - counter w2)) by lia.
    rewrite seqZ_app by lia. repeat f_equal. lia.
Qed.

(** A step that leaves the counter alone and logs nothing, or something
    that is not an identifier. *)
Lemma counts_quiet w w' t :
  counter w' = counter w -> trace w' = trace w ++ t -> identifiers t = [] ->
  counts w w'.
Proof.
  intros Hc Ht Hi. split; [lia|]. exists t. split; [assumption|].
  rewrite Hc, Z.sub_diag. assumption.
Qed.

Lemma counts_next w :
  counts w (log (with_counter w (counter w + 1)) (NextIdentifier (counter w))).
Proof.
  split; [simpl; lia|]. exists [NextIdentifier (counter w)]. split; [reflexivity|].
  simpl. replace (counter w + 1 - counter w) with 1 by lia. reflexivity.
Qed.

Lemma counts_resolveRoots : preserves counts counts resolveRoots.
Proof.
  apply preserves_of_snd. intros w.
  unfold resolveRoots, bind, get_options, get_env, set_options, exec, ret.
  simpl. destruct (repositoryRoot _); simpl.
  - apply counts_quiet with (t := []); simpl;
      [reflexivity | now rewrite app_nil_r | reflexivity].
  - destruct (execSync _ _); simpl;
      eapply counts_quiet with (t := [ExecSync _]); reflexivity.
Qed.

Lemma counts_console_error w m : counts w (log w (ConsoleError m)).
Proof. apply counts_quiet with (t := [ConsoleError m]); reflexivity. Qed.

Lemma counts_exitCode w c : counts w (with_exitCode w c).
Proof.
  apply counts_quiet with (t := []); simpl;
    [reflexivity | now rewrite app_nil_r | reflexivity].
Qed.

Lemma counts_env w e : counts w (with_env w e).
Proof.
  apply counts_quiet with (t := []); simpl;
    [reflexivity | now rewrite app_nil_r | reflexivity].
Qed.

Lemma counts_output w s : counts w (with_output w s).
Proof.
  apply counts_quiet with (t := []); simpl;
    [reflexivity | now rewrite app_nil_r | reflexivity].
Qed.

Ltac counting :=
  first [ exact counts_refl | exact counts_trans | exact counts_console_error
        | exact counts_exitCode | exact counts_env | exact counts_output
        | exact counts_next | exact counts_resolveRoots ].

Lemma counts_runVisit {A} (v : Visit A) w : counts w (snd (runVisit v w)).
Proof. apply preserves_snd. apply preserves_runVisit; counting. Qed.

Lemma counts_processProject fuel config iL eL :
  preserves counts counts (processProject fuel config iL eL).
Proof. apply preserves_processProject; counting. Qed.

Lemma counts_processReferences fuel iL eL references dependsOn w :
  counts w
    (snd (processReferences (fun c => processProject fuel c iL eL)
            references dependsOn w)).
Proof.
  apply preserves_snd. apply preserves_processReferences; try counting.
  intros c. apply counts_processProject.
Qed.

Lemma counts_visit p dependsOn iL eL w : counts w (snd (visit p dependsOn iL eL w)).
Proof. apply preserves_snd. apply preserves_visit; counting. Qed.

Lemma counts_linkAndProcess fuel config projectRoot packageJson w :
  counts w (snd (linkAndProcess fuel config projectRoot packageJson w)).
Proof. apply preserves_snd. apply preserves_linkAndProcess; counting. Qed.

End Identifiers.

Section IdentifierTheorems.
Context {T : Types} {X : External}.

Lemma silent_refl w : silent w w.
Proof. split; [reflexivity|]. exists []. now rewrite app_nil_r. Qed.

Lemma silent_trans w1 w2 w3 : silent w1 w2 -> silent w2 w3 -> silent w1 w3.
Proof.
  intros [Hc [t [Ht Hi]]] [Hc' [t' [Ht' Hi']]].
  split; [congruence|]. exists (t ++ t'). split.
  - rewrite Ht', Ht, app_assoc. reflexivity.
  - rewrite identifiers_app, Hi, Hi'. reflexivity.
Qed.

Lemma silent_quiet w w' t :
  counter w' = counter w -> trace w' = trace w ++ t -> identifiers t = [] ->
  silent w w'.
Proof. intros Hc Ht Hi. split; [assumption|]. exists t. split; assumption. Qed.

Lemma silent_resolveRoots : preserves silent silent resolveRoots.
Proof.
  apply preserves_of_snd. intros w.
  unfold resolveRoots, bind, get_options, get_env, set_options, exec, ret.
  simpl. destruct (repositoryRoot _); simpl.
  - apply silent_quiet with (t := []); simpl;
      [reflexivity | now rewrite app_nil_r | reflexivity].
  - destruct (execSync _ _); simpl;
      eapply silent_quiet with (t := [ExecSync _]); reflexivity.
Qed.

Lemma silent_prepare config w : silent w (snd (prepare config w)).
Proof.
  apply preserves_snd. apply preserves_prepare;
    first [ exact silent_refl | exact silent_trans | exact silent_resolveRoots
          | idtac ].
  - intros w0 m. apply silent_quiet with (t := [ConsoleError m]); reflexivity.
  - intros w0 c. apply silent_quiet with (t := []); simpl;
      [reflexivity | now rewrite app_nil_r | reflexivity].
  - intros w0 e. apply silent_quiet with (t := []); simpl;
      [reflexivity | now rewrite app_nil_r | reflexivity].
Qed.

Lemma draw_spec n w :
  exists w', draw n w = (Normal (seqZ (counter w) (Z.of_nat n)), w') /\
             counter w' = counter w + Z.of_nat n.
Proof.
  revert w. induction n as [|n IH]; intros w.
  - exists w. split; [reflexivity | simpl; lia].
  - destruct (IH (log (with_counter w (counter w + 1)) (NextIdentifier (counter w))))
      as [w' [Hd Hc]].
    exists w'. split.
    + cbn [draw]. unfold bind at 1. unfold idGenerator at 1. cbv zeta.
      unfold bind at 1. rewrite Hd. unfold ret.
      rewrite (seqZ_cons (counter w)) by lia.
      repeat f_equal; simpl; lia.
    + rewrite Hc. simpl. lia.
Qed.

(** C1. Whenever [processProject] gets as far as its loop over the
    resolved references and the loop hands over to the visitor, every
    identifier drawn inside the loop, that is, by the recursive calls
    for the projects this one depends on, is strictly less than every
    identifier drawn by the visitor of the project itself; the steps
    before the loop draw none. *)
Theorem dependencies_draw_smaller_identifiers
    fuel config iL eL w p w1 dependsOn w2 r w3 :
  prepare config w = (Normal (Some p), w1) ->
  processReferences (fun c => processProject fuel c iL eL) (referencesOf p) [] w1
    = (Normal dependsOn, w2) ->
  visit p dependsOn iL eL w2 = (r, w3) ->
  processProject (S fuel) config iL eL w = (r, w3) /\
  exists before inDependencies inProject,
    trace w1 = trace w ++ before /\
    trace w2 = trace w1 ++ inDependencies /\
    trace w3 = trace w2 ++ inProject /\
    identifiers before = [] /\
    forall i j, i ∈ identifiers inDependencies -> j ∈ identifiers inProject -> i < j.
Proof.
  intros Hp Hl Hv. split.
  - cbn [processProject]. unfold bind at 1. rewrite Hp.
    unfold bind at 1. rewrite Hl. exact Hv.
  - pose proof (silent_prepare config w) as [_ [t0 [Ht0 Hi0]]].
    pose proof (counts_processReferences fuel iL eL (referencesOf p) [] w1)
      as [Hc1 [t1 [Ht1 Hi1]]].
    pose proof (counts_visit p dependsOn iL eL w2) as [Hc2 [t2 [Ht2 Hi2]]].
    rewrite Hp in Ht0. rewrite Hl in Hc1, Ht1, Hi1. rewrite Hv in Hc2, Ht2, Hi2.
    simpl in *.
    exists t0, t1, t2. repeat split; try assumption.
    intros i j Hi Hj. rewrite Hi1 in Hi. rewrite Hi2 in Hj.
    apply elem_of_seqZ in Hi. apply elem_of_seqZ in Hj. lia.
Qed.

(** C2. A generator just created returns 1, 2, ..., n on its first n
    calls; and over a whole run, across the linkers and every nested
    project, the identifiers handed out are 1, 2, ..., n for some n:
    one generator, never created again. *)
Theorem identifiers_are_one_to_n :
  (forall o n w,
      fst (bind (createIdGenerator o) (fun _ => draw n) w)
      = Normal (seqZ 1 (Z.of_nat n))) /\
  (forall fuel args w,
      exists t n, 0 <= n /\
        trace (snd (run fuel args w)) = trace w ++ t /\
        identifiers t = seqZ 1 n).
Proof.
  split.
  - intros o n w. unfold bind, createIdGenerator.
    destruct (draw_spec n (with_counter w 1)) as [w' [Hd _]].
    rewrite Hd. reflexivity.
  - intros fuel args w.
    assert (Hquiet : forall w' : World,
               trace w' = trace w -> exists t n, 0 <= n /\
                 trace w' = trace w ++ t /\ identifiers t = seqZ 1 n).
    { intros w' E. exists [], 0. rewrite E, app_nil_r. repeat split. lia. }
    unfold run. unfold bind at 1. unfold get_env at 1. cbv zeta.
    unfold bind at 1. unfold set_options at 1.
    destruct (version (minimist (env w))).
    { exists [ConsoleLog toolVersion], 0. repeat split. lia. }
    destruct (help (minimist (env w))).
    { exists [ConsoleLog usage], 0. repeat split. lia. }
    destruct (projectRoot (minimist (env w))) as [root|].
    all: unfold bind at 1; unfold openWriter at 1; simpl env.
    all: destruct (fs_openSync _ _); [apply Hquiet; reflexivity|].
    all: unfold bind at 1; unfold createIdGenerator at 1.
    all: match goal with
         | |- context [snd (linkAndProcess ?f ?c ?r ?pj ?w0)] =>
             set (w1 := w0);
             destruct (counts_linkAndProcess f c r pj w1) as [Hc [t [Ht Hi]]]
         end.
    all: change (counter w1) with 1 in Hc, Hi.
    all: eexists t, _; split; [|split; [exact Ht | exact Hi]]; lia.
Qed.

End IdentifierTheorems.

(** ** The emitter writes one line per element *)

Module JSONFacts.
Import Text TextFacts.

Lemma quote_char_one_line c : has_lf (quote_char c) = false.
Proof. destruct c as [[] [] [] [] [] [] [] []]; reflexivity. Qed.

Lemma quote_chars_one_line s : has_lf (quote_chars s) = false.
Proof.
  induction s as [|c s IH]; [reflexivity|].
  simpl. rewrite has_lf_app, quote_char_one_line, IH. reflexivity.
Qed.

Lemma QuoteJSONString_one_line s : has_lf (QuoteJSONString s) = false.
Proof.
  unfold QuoteJSONString. rewrite !has_lf_app, quote_chars_one_line. reflexivity.
Qed.

Lemma string_of_uint_one_line d : has_lf (NilEmpty.string_of_uint d) = false.
Proof. induction d; simpl; assumption || reflexivity. Qed.

Lemma NumberToString_one_line n : has_lf (NumberToString n) = false.
Proof.
  unfold NumberToString, NilZero.string_of_int, NilZero.string_of_uint.
  destruct (Z.to_int n) as [d|d]; destruct d; simpl;
    try reflexivity; apply string_of_uint_one_line.
Qed.

Lemma concat_one_line sep l :
  has_lf sep = false -> Forall (fun s => has_lf s = false) l ->
  has_lf (String.concat sep l) = false.
Proof.
  intros Hsep Hl. induction Hl as [|s l Hs Hl IH]; [reflexivity|].
  destruct l as [|s' l]; [exact Hs|].
  change (String.concat sep (s :: s' :: l))
    with (s +:+ sep +:+ String.concat sep (s' :: l)).
  rewrite !has_lf_app, Hs, Hsep, IH. reflexivity.
Qed.

Lemma wrap_compact_one_line stepback indent opening closing partial :
  has_lf opening = false -> has_lf closing = false ->
  Forall (fun s => has_lf s = false) partial ->
  has_lf (wrap "" stepback indent opening closing partial) = false.
Proof.
  intros Ho Hc Hp. unfold wrap. destruct partial as [|s l].
  - rewrite has_lf_app, Ho, Hc. reflexivity.
  - rewrite !has_lf_app, Ho, Hc, concat_one_line by (reflexivity || assumption).
    reflexivity.
Qed.

(** With an empty gap the serialization has no line feed in it. *)
Lemma compact_one_line v :
  forall indent, has_lf (SerializeJSONProperty "" indent v) = false.
Proof.
  induction v as [|b|n|s|elements IH|properties IH] using Json_nested_ind;
    intros indent; cbn [SerializeJSONProperty].
  - reflexivity.
  - destruct b; reflexivity.
  - apply NumberToString_one_line.
  - apply QuoteJSONString_one_line.
  - apply wrap_compact_one_line; try reflexivity.
    apply List.Forall_map. eapply List.Forall_impl; [|exact IH]. intros v Hv. apply Hv.
  - apply wrap_compact_one_line; try reflexivity.
    apply List.Forall_map. eapply List.Forall_impl; [|exact IH]. intros [k v] Hv.
    cbn [fst snd] in *. unfold member.
    rewrite !has_lf_app, QuoteJSONString_one_line, Hv. reflexivity.
Qed.

Lemma stringify_one_line element : has_lf (stringify element 0) = false.
Proof. apply compact_one_line. Qed.

End JSONFacts.

Section EmitterTheorems.
Context {T : Types} {X : External}.

Lemma emitAll_lines elements w :
  Text.terminated (output w) ->
  exists w', emitAll elements w = (Normal tt, w') /\
             Text.terminated (output w') /\
             Text.lines (output w')
             = Text.lines (output w) ++ List.map (fun e => stringify e 0) elements.
Proof.
  revert w. induction elements as [|element rest IH]; intros w Hw.
  - exists w. repeat split; [assumption | now rewrite app_nil_r].
  - destruct (IH (with_output w (output w +:+ stringify element 0 +:+ String Text.LF "")))
      as [w' [He [Ht Hl]]].
    { apply TextFacts.terminated_app_line. }
    exists w'. split; [exact He|]. split; [exact Ht|].
    rewrite Hl. cbn [output with_output].
    rewrite TextFacts.lines_app_terminated by assumption.
    rewrite TextFacts.lines_single by apply JSONFacts.stringify_one_line.
    rewrite <- app_assoc. reflexivity.
Qed.

(** C4. A call of [emit] puts the element's [JSON.stringify] text with
    indentation 0, which has no line feed in it, and one line feed at
    the end of the output and changes nothing else: the output has one
    more line, the element's serialization. After any sequence of calls
    the new lines of the output are the serializations of the elements,
    in the order of the calls. The output before is taken to end its
    last line, as it does when it is empty or only [emit] wrote to it. *)
Theorem emit_appends_one_line element elements w :
  Text.terminated (output w) ->
  emit element w
  = (Normal tt, with_output w (output w +:+ stringify element 0 +:+ String Text.LF "")) /\
  Text.has_lf (stringify element 0) = false /\
  Text.lines (output (snd (emit element w)))
  = Text.lines (output w) ++ [stringify element 0] /\
  exists w', emitAll elements w = (Normal tt, w') /\
             Text.lines (output w')
             = Text.lines (output w) ++ List.map (fun e => stringify e 0) elements.
Proof.
  intros Hw. split; [reflexivity|].
  split; [apply JSONFacts.stringify_one_line|]. split.
  - cbn [emit writeln snd output with_output].
    rewrite TextFacts.lines_app_terminated by assumption.
    rewrite TextFacts.lines_single by apply JSONFacts.stringify_one_line.
    reflexivity.
  - destruct (emitAll_lines elements w Hw) as [w' [He [_ Hl]]].
    exists w'. split; assumption.
Qed.

End EmitterTheorems.

Section SnapshotTheorems.
Context {T : Types} {X : External}.

Lemma getScriptSnapshot_cached fileName e h s :
  ts.entries h !! fileName = Some s ->
  getScriptSnapshot fileName e h = (Some s, h).
Proof. intros H. unfold getScriptSnapshot. rewrite H. reflexivity. Qed.

Lemma getScriptSnapshot_some fileName e h s h' :
  getScriptSnapshot fileName e h = (Some s, h') ->
  ts.entries h' !! fileName = Some s.
Proof.
  unfold getScriptSnapshot.
  destruct (ts.entries h !! fileName) as [s0|] eqn:E.
  - intros [= <- <-]. exact E.
  - destruct (negb _); [discriminate|].
    destruct (sys_readFile e fileName); [|discriminate].
    intros [= <- <-]. simpl. apply lookup_insert_eq.
Qed.

(** An entry of the map is never replaced or removed. *)
Lemma getScriptSnapshot_keeps fileName other e h s :
  ts.entries h !! fileName = Some s ->
  ts.entries (snd (getScriptSnapshot other e h)) !! fileName = Some s.
Proof.
  intros H. unfold getScriptSnapshot.
  destruct (ts.entries h !! other) as [s0|] eqn:E; [exact H|].
  destruct (negb _); [exact H|].
  destruct (sys_readFile e other); [|exact H].
  simpl. rewrite lookup_insert_ne; [exact H|]. congruence.
Qed.

Lemma serve_keeps fileName requests h s :
  ts.entries h !! fileName = Some s ->
  ts.entries (snd (serve requests h)) !! fileName = Some s.
Proof.
  revert h. induction requests as [|[other e] rest IH]; intros h H; [exact H|].
  cbn [serve].
  pose proof (getScriptSnapshot_keeps fileName other e h s H) as K.
  destruct (getScriptSnapshot other e h) as [result h1].
  specialize (IH h1 K).
  destruct (serve rest h1) as [results final]. exact IH.
Qed.

(** C5. Once a host has returned a snapshot for a file, every later
    request to that host for the same file returns that very snapshot
    object, with the content captured at the first read, whatever
    requests came in between and whatever the file system looks like by
    then; the later request leaves the map as it is. *)
Theorem snapshot_is_cached fileName e1 h s h1 requests e2 :
  getScriptSnapshot fileName e1 h = (Some s, h1) ->
  let h2 := snd (serve requests h1) in
  getScriptSnapshot fileName e2 h2 = (Some s, h2).
Proof.
  intros H h2. apply getScriptSnapshot_cached.
  apply serve_keeps. eapply getScriptSnapshot_some. exact H.
Qed.

(** C9. A request that returns no snapshot leaves the host's map
    untouched, with no entry for the file: the file did not exist or
    could not be read. A later request for the file, by which time it
    exists and can be read, returns a snapshot of the content found
    then, and only then is the file entered into the map. *)
Theorem absence_is_not_cached fileName e h h' :
  getScriptSnapshot fileName e h = (None, h') ->
  h' = h /\
  ts.entries h' !! fileName = None /\
  (sys_fileExists e fileName = false \/ sys_readFile e fileName = None) /\
  forall e2 content,
    sys_fileExists e2 fileName = true ->
    sys_readFile e2 fileName = Some content ->
    exists s h2, getScriptSnapshot fileName e2 h' = (Some s, h2) /\
                 ts.getText s = content /\
                 ts.entries h2 !! fileName = Some s.
Proof.
  unfold getScriptSnapshot.
  destruct (ts.entries h !! fileName) as [s0|] eqn:E; [discriminate|].
  destruct (sys_fileExists e fileName) eqn:Ex; simpl.
  - destruct (sys_readFile e fileName) eqn:Er; [discriminate|].
    intros [= <-]. repeat split; auto.
    intros e2 content Hex Hrd. rewrite E, Hex, Hrd. simpl.
    eexists _, _. split; [reflexivity|]. split; [reflexivity|].
    simpl. apply lookup_insert_eq.
  - intros [= <-]. repeat split; auto.
    intros e2 content Hex Hrd. rewrite E, Hex, Hrd. simpl.
    eexists _, _. split; [reflexivity|]. split; [reflexivity|].
    simpl. apply lookup_insert_eq.
Qed.

End SnapshotTheorems.

Section ConfigurationTheorems.
Context {T : Types} {X : External}.

(** C3, as the code has it. In a configuration that is an object, a
    [compilerOptions] that is an object gets every forced default,
    whatever the file said for that option, and keeps the file's other
    options; without the property the configuration goes to the parser
    as read, with no forced default in it; a [compilerOptions] of
    [null] makes [loadConfigFile] throw the engine's TypeError before
    the parser is reached; for any other [compilerOptions] the engine's
    [Object.assign] decides. A configuration that is [null] is a
    TypeError too, and one that is a boolean, a number, a string or an
    array goes to the parser as read. In every case [loadConfigFile]
    throws what forcing the defaults throws, or returns what the parser
    makes of the forced configuration, or throws the parser's errors. *)
Theorem forced_defaults_need_a_section file w :
  let e := env w in
  let absolute := path_resolve e file in
  let readResult := readConfigFile e absolute in
  let parsed config := parseJsonConfigFileContent config (path_dirname absolute) e in
  ts.error readResult = None ->
  loadConfigFile file w
  = (match forceDefaults file (ts.config readResult) with
     | inl fault => Throw fault
     | inr forced =>
         if Nat.ltb 0 (length (ts.errors (parsed forced)))
         then Throw (formatDiagnostics (ts.errors (parsed forced)))
         else Normal (parsed forced)
     end, w) /\
  (forall properties section_,
      ts.config readResult = ts.ConfigObject properties ->
      ts.compilerOptions properties = Some (ts.SectionObject section_) ->
      exists merged,
        forceDefaults file (ts.config readResult)
        = inr (ts.ConfigObject
                 {| ts.compilerOptions := Some (ts.SectionObject merged);
                    ts.otherProperties := ts.otherProperties properties |}) /\
        (forall k v, getDefaultCompilerOptions file !! k = Some v ->
                     merged !! k = Some v) /\
        (forall k, getDefaultCompilerOptions file !! k = None ->
                   merged !! k = section_ !! k)) /\
  (forall properties,
      ts.config readResult = ts.ConfigObject properties ->
      ts.compilerOptions properties = None ->
      forceDefaults file (ts.config readResult) = inr (ts.config readResult)) /\
  (forall properties,
      ts.config readResult = ts.ConfigObject properties ->
      ts.compilerOptions properties = Some ts.SectionNull ->
      loadConfigFile file w = (Throw (TypeError ConvertNullToObject), w)) /\
  (forall properties v,
      ts.config readResult = ts.ConfigObject properties ->
      ts.compilerOptions properties = Some (ts.SectionOther v) ->
      forceDefaults file (ts.config readResult)
      = match Object_assign_other v (getDefaultCompilerOptions file) with
        | inl fault => inl fault
        | inr assigned =>
            inr (ts.ConfigObject
                   {| ts.compilerOptions := Some assigned;
                      ts.otherProperties := ts.otherProperties properties |})
        end) /\
  (ts.config readResult = ts.ConfigNull ->
   loadConfigFile file w
   = (Throw (TypeError (ReadPropertyOfNull "compilerOptions")), w)) /\
  (forall v,
      ts.config readResult = ts.ConfigOther v ->
      forceDefaults file (ts.config readResult) = inr (ts.config readResult)).
Proof.
  intros e absolute readResult parsed Herr.
  assert (Hload : loadConfigFile file w
                  = (match forceDefaults file (ts.config readResult) with
                     | inl fault => Throw fault
                     | inr forced =>
                         if Nat.ltb 0 (length (ts.errors (parsed forced)))
                         then Throw (formatDiagnostics (ts.errors (parsed forced)))
                         else Normal (parsed forced)
                     end, w)).
  { unfold loadConfigFile, bind, get_env. cbv zeta.
    fold e absolute readResult. rewrite Herr.
    destruct (forceDefaults file (ts.config readResult)) as [fault|forced];
      [reflexivity|].
    fold (parsed forced). destruct (Nat.ltb _ _); reflexivity. }
  split; [exact Hload|]. split; [|split; [|split; [|split; [|split]]]].
  - intros properties section_ Hc Hs. rewrite Hc. unfold forceDefaults. rewrite Hs.
    cbn [Object_assign_section].
    eexists. split; [reflexivity|]. unfold Object_assign. split.
    + intros k v Hk. apply lookup_union_Some_l. exact Hk.
    + intros k Hk. apply lookup_union_r. exact Hk.
  - intros properties Hc Hs. rewrite Hc. unfold forceDefaults. rewrite Hs.
    reflexivity.
  - intros properties Hc Hs. rewrite Hload, Hc. unfold forceDefaults. rewrite Hs.
    reflexivity.
  - intros properties v Hc Hs. rewrite Hc. unfold forceDefaults. rewrite Hs.
    reflexivity.
  - intros Hc. rewrite Hload, Hc. reflexivity.
  - intros v Hc. rewrite Hc. reflexivity.
Qed.

End ConfigurationTheorems.

Section Reads.
Context {T : Types} {X : External}.

Lemma resolveConfiguration_reads config w r w' :
  resolveConfiguration config w = (Normal (Some r), w') -> w' = w.
Proof.
  unfold resolveConfiguration.
  destruct (ts.project _) as [project|]; [|intros [= _ <-]; reflexivity].
  destruct (String.eqb _ _); [intros [= _ <-]; reflexivity|].
  unfold bind at 1. unfold get_env at 1. cbv zeta.
  destruct (negb _); [discriminate|].
  unfold bind at 1.
  pose proof (loadConfigFile_reads (configFileOf (env w) project) w) as E.
  destruct (loadConfigFile _ w) as [[c|err|] w2]; simpl in E; subst w2;
    [|discriminate..].
  intros [= _ <-]. reflexivity.
Qed.

Lemma inferTypingsStep_options f config w :
  options (snd (inferTypingsStep f config w)) = options w.
Proof.
  unfold inferTypingsStep, bind, get_options, get_env, external, ret.
  destruct (inferTypings (options w)); [|reflexivity].
  destruct (ts.types _).
  - destruct (installTypings _ _ _ _); reflexivity.
  - destruct (guessTypings _ _ _); reflexivity.
Qed.

Lemma createProgram_reads f config w p w' :
  createProgram f config w = (Normal (Some p), w') -> w' = w.
Proof.
  unfold createProgram, bind, get_env.
  destruct (getProgram _ _); [|discriminate].
  intros [= _ <-]. reflexivity.
Qed.

End Reads.

Section AbortTheorems.
Context {T : Types} {X : External}.

(** C6. For a configuration that names a project path, the
    configuration file is [tsconfig.json] inside the resolved path when
    that is a directory and the resolved path itself otherwise. If that
    file exists, it is the file [loadConfigFile] loads. If it does not
    exist, [processProject] reports the error on the console, sets the
    exit code to 1 and returns no [ProjectInfo]; the output and the
    identifier counter are as before. *)
Theorem missing_configuration_file fuel config iL eL w project :
  ts.project (ts.options config) = Some project ->
  project <> "" ->
  let projectPath := path_resolve (env w) project in
  let file := configFileOf (env w) project in
  file = (if sys_directoryExists (env w) projectPath
          then path_join projectPath "tsconfig.json"
          else projectPath) /\
  (sys_fileExists (env w) file = true ->
   resolveConfiguration config w
   = bind (loadConfigFile file) (fun config' => ret (Some (Some file, config'))) w) /\
  (sys_fileExists (env w) file = false ->
   let w' :=
     with_exitCode
       (log w (ConsoleError
                 ("Project configuration file " +:+ file +:+ " does not exist"))) 1 in
   processProject (S fuel) config iL eL w = (Normal None, w') /\
   exitCode w' = Some 1 /\
   output w' = output w /\
   counter w' = counter w /\
   identifiers (trace w') = identifiers (trace w)).
Proof.
  intros Hp Hne projectPath file.
  assert (Heq : String.eqb project "" = false).
  { apply String.eqb_neq. exact Hne. }
  split; [reflexivity|]. split.
  - intros Hex. unfold resolveConfiguration. rewrite Hp, Heq.
    unfold bind at 1. unfold get_env at 1. cbv zeta. fold file.
    rewrite Hex. reflexivity.
  - intros Hex w'. split.
    + cbn [processProject]. unfold bind at 1. unfold prepare.
      unfold bind at 1. unfold resolveConfiguration. rewrite Hp, Heq.
      unfold bind at 1. unfold get_env at 1. cbv zeta. fold file.
      rewrite Hex. reflexivity.
    + subst w'. repeat split. simpl.
      rewrite identifiers_app. simpl. apply app_nil_r.
Qed.

(** C7. When the configuration [processProject] goes on with, the one
    it was given or the one loaded from the named project, has no file
    names, [processProject] reports the error on the console, sets the
    exit code to 1 and returns no [ProjectInfo]; nothing else has
    changed: the output and the identifier counter are as before. *)
Theorem no_input_files fuel config iL eL w tsconfigFileName config' w1 :
  resolveConfiguration config w = (Normal (Some (tsconfigFileName, config')), w1) ->
  ts.fileNames config' = [] ->
  let w' := with_exitCode (log w (ConsoleError "No input files specified.")) 1 in
  processProject (S fuel) config iL eL w = (Normal None, w') /\
  exitCode w' = Some 1 /\
  output w' = output w /\
  counter w' = counter w /\
  identifiers (trace w') = identifiers (trace w).
Proof.
  intros Hr Hf w'.
  pose proof (resolveConfiguration_reads _ _ _ _ Hr) as Hw.
  subst w1. split.
  - cbn [processProject]. unfold bind at 1. unfold prepare.
    unfold bind at 1. rewrite Hr. rewrite Hf. reflexivity.
  - subst w'. repeat split. simpl.
    rewrite identifiers_app. simpl. apply app_nil_r.
Qed.

End AbortTheorems.

Section ReferenceTheorems.
Context {T : Types} {X : External}.



End ReferenceTheorems.

(** ** The shared options object *)

Lemma executions_app t1 t2 : executions (t1 ++ t2) = (executions t1 + executions t2)%nat.
Proof.
  induction t1 as [|ev t1 IH]; [reflexivity|].
  destruct ev; simpl; rewrite IH; reflexivity.
Qed.

Section RootTheorems.
Context {T : Types} {X : External}.

Lemma stable_refl w : stable w w.
Proof. intros _. split; [reflexivity|]. exists []. now rewrite app_nil_r. Qed.

Lemma stable_trans w1 w2 w3 : stable w1 w2 -> stable w2 w3 -> stable w1 w3.
Proof.
  intros H12 H23 Hs. destruct (H12 Hs) as [Ho [t [Ht He]]].
  rewrite <- Ho in Hs. destruct (H23 Hs) as [Ho' [t' [Ht' He']]].
  split; [congruence|]. exists (t ++ t'). split.
  - rewrite Ht', Ht, app_assoc. reflexivity.
  - rewrite executions_app, He, He'. reflexivity.
Qed.

Lemma stable_quiet w w' t :
  options w' = options w -> trace w' = trace w ++ t -> executions t = 0%nat ->
  stable w w'.
Proof. intros Ho Ht He _. split; [exact Ho|]. exists t. split; assumption. Qed.

Lemma with_roots_same o pr rr :
  projectRoot o = Some pr -> repositoryRoot o = Some rr ->
  Options.with_repositoryRoot (Options.with_projectRoot o (Some pr)) (Some rr) = o.
Proof. destruct o; simpl; intros -> ->; reflexivity. Qed.

Lemma stable_resolveRoots : preserves stable stable resolveRoots.
Proof.
  apply preserves_of_snd. intros w [pr [rr [Hp [Hr [Fp Fr]]]]].
  unfold resolveRoots, bind, get_options, get_env, set_options, ret.
  rewrite Hp. cbn [projectRoot repositoryRoot Options.with_projectRoot
                     Options.with_repositoryRoot narrowed default].
  rewrite Hr. cbn [snd options with_options trace projectRoot repositoryRoot
                     Options.with_projectRoot Options.with_repositoryRoot
                     narrowed default].
  unfold narrowed. rewrite Hp, Hr. cbn [default]. rewrite Fp, Fr. split.
  - apply with_roots_same; assumption.
  - exists []. now rewrite app_nil_r.
Qed.

Ltac quiet := intros; apply stable_quiet with (t := []);
              [reflexivity | simpl; now rewrite app_nil_r | reflexivity].

Lemma stable_processProject fuel config iL eL w :
  stable w (snd (processProject fuel config iL eL w)).
Proof.
  apply preserves_snd. apply preserves_processProject;
    first [ exact stable_refl | exact stable_trans | exact stable_resolveRoots
          | quiet | idtac ].
  - intros w0 m. apply stable_quiet with (t := [ConsoleError m]); reflexivity.
  - intros w0.
    apply stable_quiet with (t := [NextIdentifier (counter w0)]); reflexivity.
Qed.

Lemma stable_visit p dependsOn iL eL w :
  stable w (snd (visit p dependsOn iL eL w)).
Proof.
  apply preserves_snd. apply preserves_visit;
    first [ exact stable_refl | exact stable_trans | quiet | idtac ].
  intros w0.
  apply stable_quiet with (t := [NextIdentifier (counter w0)]); reflexivity.
Qed.

Lemma once_refl w : once w w.
Proof.
  exists []. rewrite app_nil_r. simpl. repeat split; auto; lia.
Qed.

Lemma once_abrupt_refl w : once_abrupt w w.
Proof. exists []. rewrite app_nil_r. simpl. repeat split; auto. Qed.

Lemma once_trans w1 w2 w3 : once w1 w2 -> once w2 w3 -> once w1 w3.
Proof.
  intros [t [Ht [Hle [Hs H1]]]] [t' [Ht' [Hle' [Hs' H1']]]].
  exists (t ++ t'). rewrite executions_app.
  split; [rewrite Ht', Ht, app_assoc; reflexivity|].
  assert (executions t = 1%nat -> executions t' = 0%nat).
  { intros E. apply Hs', H1, E. }
  split; [lia|]. split.
  - intros S1. destruct (Hs S1) as [S2 E]. destruct (Hs' S2) as [S3 E'].
    split; [exact S3 | lia].
  - intros E.
    destruct (Nat.eq_dec (executions t) 1%nat) as [E1|E1].
    + apply Hs', H1, E1.
    + apply H1'. lia.
Qed.

Lemma once_abrupt_trans w1 w2 w3 : once w1 w2 -> once_abrupt w2 w3 -> once_abrupt w1 w3.
Proof.
  intros [t [Ht [Hle [Hs H1]]]] [t' [Ht' [Hle' Hs']]].
  exists (t ++ t'). rewrite executions_app.
  split; [rewrite Ht', Ht, app_assoc; reflexivity|].
  assert (executions t = 1%nat -> executions t' = 0%nat).
  { intros E. apply Hs', H1, E. }
  split; [lia|].
  intros S1. destruct (Hs S1) as [S2 E]. specialize (Hs' S2). lia.
Qed.

Lemma once_quiet w w' t :
  options w' = options w -> trace w' = trace w ++ t -> executions t = 0%nat ->
  once w w'.
Proof.
  intros Ho Ht He. exists t. rewrite Ho, He.
  repeat split; auto; lia || discriminate.
Qed.

Lemma once_resolveRoots : preserves once once_abrupt resolveRoots.
Proof.
  intros w. unfold resolveRoots, bind, get_options, get_env, set_options, exec, ret.
  cbv zeta.
  destruct (repositoryRoot
              (Options.with_projectRoot
                 match projectRoot (options w) with
                 | Some _ => options w
                 | None => Options.with_projectRoot (options w)
                             (Some (process_cwd (env w)))
                 end _)) as [rr|] eqn:Hr.
  - exists []. rewrite app_nil_r. simpl.
    repeat split; auto; lia || discriminate.
  - assert (Hnone : repositoryRoot (options w) = None).
    { revert Hr. destruct (projectRoot (options w)); simpl; auto. }
    cbn [env with_options]. destruct (execSync _ (env w)) as [err|stdout].
    + exists [ExecSync "git rev-parse --show-toplevel"]. simpl.
      split; [reflexivity|]. split; [lia|].
      rewrite Hnone. intros [? [=]].
    + exists [ExecSync "git rev-parse --show-toplevel"]. simpl.
      split; [reflexivity|]. split; [lia|]. split.
      * rewrite Hnone. intros [? [=]].
      * intros _. eexists. reflexivity.
Qed.

Ltac still := intros; apply once_quiet with (t := []);
              [reflexivity | simpl; now rewrite app_nil_r | reflexivity].

Lemma once_linkAndProcess fuel config projectRoot packageJson :
  preserves once once_abrupt (linkAndProcess fuel config projectRoot packageJson).
Proof.
  apply preserves_linkAndProcess;
    first [ exact once_refl | exact once_trans | exact once_abrupt_refl
          | exact once_abrupt_trans | exact once_resolveRoots | still | idtac ].
  - intros w0 m. apply once_quiet with (t := [ConsoleError m]); reflexivity.
  - intros w0.
    apply once_quiet with (t := [NextIdentifier (counter w0)]); reflexivity.
Qed.

(** A run calls the version-control tool at most once. *)
Lemma run_executes_once fuel args w :
  exists t, trace (snd (run fuel args w)) = trace w ++ t /\ (executions t <= 1)%nat.
Proof.
  unfold run. unfold bind at 1. unfold get_env at 1. cbv zeta.
  unfold bind at 1. unfold set_options at 1.
  destruct (version (minimist (env w))).
  { exists [ConsoleLog toolVersion]. split; [reflexivity | simpl; lia]. }
  destruct (help (minimist (env w))).
  { exists [ConsoleLog usage]. split; [reflexivity | simpl; lia]. }
  destruct (projectRoot (minimist (env w))) as [root|].
  all: unfold bind at 1; unfold openWriter at 1; simpl env.
  all: destruct (fs_openSync _ _);
    [exists []; simpl; rewrite app_nil_r; split; [reflexivity | lia]|].
  all: unfold bind at 1; unfold createIdGenerator at 1.
  all: match goal with
       | |- context [snd (linkAndProcess ?f ?c ?r ?pj ?w0)] =>
           pose proof (once_linkAndProcess f c r pj w0) as H;
           destruct (linkAndProcess f c r pj w0) as [[a|e|] w']
       end.
  all: destruct H as [t [Ht [Hle _]]]; exists t; split; assumption.
Qed.

End RootTheorems.

Section RootsOnce.
Context {T : Types} {X : External}.

(** A project that gets to its program has been through lines 112 to
    120, and nothing after them touched the options. *)
Lemma prepare_roots config w p w1 :
  prepare config w = (Normal (Some p), w1) ->
  exists wR, resolveRoots w = (Normal tt, wR) /\ options w1 = options wR.
Proof.
  unfold prepare. unfold bind at 1.
  destruct (resolveConfiguration config w) as [[[[f config']|]|e|] w0] eqn:Hr;
    try discriminate.
  apply resolveConfiguration_reads in Hr. subst w0.
  destruct (Nat.eqb _ _); [discriminate|].
  unfold bind at 1.
  destruct (resolveRoots w) as [[[]|e|] wR]; try discriminate.
  unfold bind at 1.
  pose proof (inferTypingsStep_options f config' wR) as Ho.
  destruct (inferTypingsStep f config' wR) as [[[]|e|] wT]; try discriminate.
  intros Hc. apply createProgram_reads in Hc. subst w1.
  exists wR. split; [reflexivity | exact Ho].
Qed.

Lemma resolveRoots_normal w w' :
  resolveRoots w = (Normal tt, w') ->
  exists rr,
    options w'
    = Options.with_repositoryRoot
        (Options.with_projectRoot (options w)
           (Some (makeAbsolute (env w)
                    (default (process_cwd (env w)) (projectRoot (options w))))))
        (Some (makeAbsolute (env w) rr)) /\
    match repositoryRoot (options w) with
    | Some r => rr = r
    | None =>
        exists stdout,
          execSync "git rev-parse --show-toplevel" (env w) = inr stdout /\
          rr = Text.trimRight stdout
    end.
Proof.
  unfold resolveRoots, bind, get_options, get_env, set_options, exec, ret, narrowed.
  destruct (projectRoot (options w)) as [pr|] eqn:Hp;
    destruct (repositoryRoot (options w)) as [rr|] eqn:Hr;
    do 3 (simpl; rewrite ?Hp, ?Hr).
  - intros [= <-]. exists rr. split; reflexivity.
  - destruct (execSync _ (env w)) as [err|stdout]; [discriminate|].
    intros [= <-]. exists (Text.trimRight stdout). split; [reflexivity|].
    exists stdout. split; reflexivity.
  - intros [= <-]. exists rr. split; reflexivity.
  - destruct (execSync _ (env w)) as [err|stdout]; [discriminate|].
    intros [= <-]. exists (Text.trimRight stdout). split; [reflexivity|].
    exists stdout. split; reflexivity.
Qed.

(** Modelled from the spec: [makeAbsolute] of [./typescripts] normalizes
    a path to absolute form, so a path it returned it returns again
    unchanged, from whatever working directory. *)
Hypothesis makeAbsolute_idempotent :
  forall e e' p, makeAbsolute e' (makeAbsolute e p) = makeAbsolute e p.

(** C10. A project that gets past its configuration checks leaves the
    shared options object with both roots filled in and made absolute:
    the project root from the option or else the working directory, the
    repository root from the option or else the trimmed output of the
    version-control tool. From then on the object stays as it is: every
    nested [processProject] call and the visitor find these roots, leave
    them, and run no child process. Over a whole run the
    version-control tool is called at most once. *)
Theorem roots_are_resolved_once fuel config iL eL w p w1 :
  prepare config w = (Normal (Some p), w1) ->
  (exists rr,
      options w1
      = Options.with_repositoryRoot
          (Options.with_projectRoot (options w)
             (Some (makeAbsolute (env w)
                      (default (process_cwd (env w)) (projectRoot (options w))))))
          (Some (makeAbsolute (env w) rr)) /\
      match repositoryRoot (options w) with
      | Some r => rr = r
      | None =>
          exists stdout,
            execSync "git rev-parse --show-toplevel" (env w) = inr stdout /\
            rr = Text.trimRight stdout
      end) /\
  settled (options w1) /\
  (forall fuel' config' w',
      options w' = options w1 ->
      let w'' := snd (processProject fuel' config' iL eL w') in
      options w'' = options w1 /\
      exists t, trace w'' = trace w' ++ t /\ executions t = 0%nat) /\
  (forall dependsOn w',
      options w' = options w1 ->
      let w'' := snd (visit p dependsOn iL eL w') in
      options w'' = options w1 /\
      exists t, trace w'' = trace w' ++ t /\ executions t = 0%nat) /\
  (forall args w0,
      exists t, trace (snd (run fuel args w0)) = trace w0 ++ t /\
                (executions t <= 1)%nat).
Proof using makeAbsolute_idempotent.
  intros Hp.
  destruct (prepare_roots _ _ _ _ Hp) as [wR [HR Ho]].
  destruct (resolveRoots_normal _ _ HR) as [rr [Hopt Hrr]].
  rewrite <- Ho in Hopt.
  assert (Hs : settled (options w1)).
  { rewrite Hopt. eexists _, _. split; [reflexivity|]. split; [reflexivity|].
    split; intros e; apply makeAbsolute_idempotent. }
  split; [exists rr; split; assumption|]. split; [exact Hs|].
  split; [|split].
  - intros fuel' config' w' Hw' w''.
    destruct (stable_processProject fuel' config' iL eL w') as [Hsame Ht].
    { rewrite Hw'. exact Hs. }
    split; [subst w''; congruence | exact Ht].
  - intros dependsOn w' Hw' w''.
    destruct (stable_visit p dependsOn iL eL w') as [Hsame Ht].
    { rewrite Hw'. exact Hs. }
    split; [subst w''; congruence | exact Ht].
  - intros args w0. apply run_executes_once.
Qed.

End RootsOnce.

(** * The theorems at work on the small repository *)

Module Checks.
Import Demo.
#[local] Existing Instance Demo.types.
#[local] Existing Instance Demo.external.

Lemma prepare_root : prepare root start = (Normal (Some prepared), atLoop).
Proof. vm_compute. reflexivity. Qed.

Lemma loop_root :
  processReferences nested (referencesOf prepared) [] atLoop
  = (Normal [(1, [])], afterLoop).
Proof. vm_compute. reflexivity. Qed.

Lemma visit_root :
  visit prepared [(1, [])] tt None afterLoop = (Normal (Some (3, [1])), atEnd).
Proof. vm_compute. reflexivity. Qed.

(** The library draws 1 and 2, the root project 3 and 4. *)
Lemma dependencies_draw_smaller_identifiers_witness :
  prepare root start = (Normal (Some prepared), atLoop) /\
  processReferences nested (referencesOf prepared) [] atLoop
    = (Normal [(1, [])], afterLoop) /\
  visit prepared [(1, [])] tt None afterLoop = (Normal (Some (3, [1])), atEnd) /\
  processProject 3 root tt None start = (Normal (Some (3, [1])), atEnd) /\
  identifiers (trace atEnd) = [1; 2; 3; 4].
Proof.
  split; [exact prepare_root|]. split; [exact loop_root|].
  split; [exact visit_root|]. split.
  - exact (proj1 (dependencies_draw_smaller_identifiers 2 root tt None start
                    prepared atLoop [(1, [])] afterLoop _ atEnd
                    prepare_root loop_root visit_root)).
  - vm_compute. reflexivity.
Defined.

(** The library's configuration says [noEmit: false] and [strict: true];
    the configuration handed to the parser has the forced [noEmit: true]
    and keeps [strict]. *)
Lemma forced_defaults_need_a_section_witness :
  ts.error (readConfigFile disk (path_resolve disk "/repo/lib/tsconfig.json")) = None /\
  exists merged others,
    forceDefaults "/repo/lib/tsconfig.json"
      (ts.config (readConfigFile disk (path_resolve disk "/repo/lib/tsconfig.json")))
    = inr (ts.ConfigObject {| ts.compilerOptions := Some (ts.SectionObject merged);
                              ts.otherProperties := others |}) /\
    merged !! "noEmit" = Some (JBool true) /\
    merged !! "strict" = Some (JBool true).
Proof.
  assert (He : ts.error (readConfigFile disk
                           (path_resolve disk "/repo/lib/tsconfig.json")) = None)
    by reflexivity.
  split; [exact He|].
  destruct (forced_defaults_need_a_section "/repo/lib/tsconfig.json" start He)
    as [_ [Hsection _]].
  destruct (Hsection _ {["strict" := JBool true; "noEmit" := JBool false]}
              eq_refl eq_refl)
    as [merged [Hm [Hforced Hkept]]].
  exists merged. eexists. split; [exact Hm|]. split.
  - apply Hforced. vm_compute. reflexivity.
  - rewrite Hkept; vm_compute; reflexivity.
Defined.

(** C3, as the claim has it, fails: a configuration file without a
    [compilerOptions] section is loaded without error, [noEmit] is a
    forced default, and neither the configuration handed to the parser
    nor the loaded result has it. *)
Lemma forced_defaults_missing_without_section :
  getDefaultCompilerOptions "/repo/bare/tsconfig.json" !! "noEmit" = Some (JBool true) /\
  (exists others,
      forceDefaults "/repo/bare/tsconfig.json"
        (ts.config (readConfigFile disk (path_resolve disk "/repo/bare/tsconfig.json")))
      = inr (ts.ConfigObject {| ts.compilerOptions := None;
                                ts.otherProperties := others |})) /\
  exists result,
    loadConfigFile "/repo/bare/tsconfig.json" start = (Normal result, start) /\
    ts.fileNames result = ["/repo/bare/c.ts"] /\
    ts.settings (ts.options result) !! "noEmit" = None.
Proof.
  split; [vm_compute; reflexivity|]. split; [eexists; reflexivity|].
  eexists. split; [reflexivity|]. split; vm_compute; reflexivity.
Qed.

(** A [compilerOptions] of [null] is not a missing section: the file is
    read without error and [loadConfigFile] throws the TypeError of
    [Object.assign]. *)
Lemma null_section_is_a_TypeError :
  ts.error (readConfigFile disk (path_resolve disk "/repo/void/tsconfig.json")) = None /\
  loadConfigFile "/repo/void/tsconfig.json" start
  = (Throw "TypeError: Cannot convert undefined or null to object", start).
Proof. split; reflexivity. Qed.

(** The serialization [emit] asks for is on one line; with an indentation
    of 2 the same element would spread over several. *)
Lemma stringify_compact_and_pretty :
  stringify (vertex 1 "project") 0
  = "{" +:+ JSON.dquote +:+ "id" +:+ JSON.dquote +:+ ":1,"
    +:+ JSON.dquote +:+ "type" +:+ JSON.dquote +:+ ":"
    +:+ JSON.dquote +:+ "vertex" +:+ JSON.dquote +:+ ","
    +:+ JSON.dquote +:+ "label" +:+ JSON.dquote +:+ ":"
    +:+ JSON.dquote +:+ "project" +:+ JSON.dquote +:+ "}" /\
  length (Text.lines (stringify (vertex 1 "project") 2)) = 5%nat.
Proof. split; vm_compute; reflexivity. Qed.

(** A run over the root file alone: identifiers 1 and 2, two lines. *)
Lemma run_on_one_file :
  identifiers (trace (snd (run 3 ["/repo/a.ts"] start))) = [1; 2] /\
  Text.lines (output (snd (run 3 ["/repo/a.ts"] start)))
  = [stringify (vertex 1 "project") 0; stringify (vertex 2 "document") 0].
Proof. split; vm_compute; reflexivity. Qed.

(** Two elements emitted into the empty output: two lines, in order. *)
Lemma emit_appends_one_line_witness :
  Text.terminated (output start) /\
  Text.lines (output (snd (emit (vertex 1 "project") start)))
  = [stringify (vertex 1 "project") 0] /\
  exists w', emitAll [vertex 1 "project"; vertex 2 "document"] start = (Normal tt, w') /\
             Text.lines (output w')
             = [stringify (vertex 1 "project") 0; stringify (vertex 2 "document") 0].
Proof.
  assert (H : Text.terminated (output start)) by (left; reflexivity).
  split; [exact H|].
  destruct (emit_appends_one_line (vertex 1 "project")
              [vertex 1 "project"; vertex 2 "document"] start H)
    as [_ [_ [Hone Hall]]].
  split; [exact Hone | exact Hall].
Defined.

(** [a.ts] is read once; after it has been rewritten on disk the host
    still returns the snapshot of the first read. *)
Lemma snapshot_is_cached_witness :
  getScriptSnapshot "/repo/a.ts" disk emptyMap
  = (Some firstRead, snd (getScriptSnapshot "/repo/a.ts" disk emptyMap)) /\
  let h2 := snd (serve [("/repo/lib/b.ts", disk); ("/repo/new.ts", later)]
                   (snd (getScriptSnapshot "/repo/a.ts" disk emptyMap))) in
  getScriptSnapshot "/repo/a.ts" later h2 = (Some firstRead, h2).
Proof.
  assert (H : getScriptSnapshot "/repo/a.ts" disk emptyMap
              = (Some firstRead, snd (getScriptSnapshot "/repo/a.ts" disk emptyMap)))
    by reflexivity.
  split; [exact H|].
  exact (snapshot_is_cached (X := external) "/repo/a.ts" disk emptyMap firstRead _
           [("/repo/lib/b.ts", disk); ("/repo/new.ts", later)] later H).
Defined.

(** A second host, as a nested project gets one, starts with an empty
    map and reads the disk as it is by then. *)
Lemma hosts_have_separate_maps :
  fst (getScriptSnapshot "/repo/a.ts" disk emptyMap) = Some firstRead /\
  fst (getScriptSnapshot "/repo/a.ts" later (ts.scriptSnapshots (createHost None root)))
  = Some {| ts.ref := 0; ts.getText := "export const a = 100" |}.
Proof. split; reflexivity. Qed.

(** [new.ts] is not there at first and is there later. *)
Lemma absence_is_not_cached_witness :
  getScriptSnapshot "/repo/new.ts" disk emptyMap = (None, emptyMap) /\
  exists s h2,
    getScriptSnapshot "/repo/new.ts" later emptyMap = (Some s, h2) /\
    ts.getText s = "export {}" /\
    ts.entries h2 !! "/repo/new.ts" = Some s.
Proof.
  assert (H : getScriptSnapshot "/repo/new.ts" disk emptyMap = (None, emptyMap))
    by reflexivity.
  split; [exact H|].
  destruct (absence_is_not_cached (X := external)
              "/repo/new.ts" disk emptyMap emptyMap H)
    as [_ [_ [_ Hlater]]].
  apply (Hlater later "export {}"); reflexivity.
Defined.

(** A project path that is neither a directory nor a file. *)
Lemma missing_configuration_file_witness :
  ts.project (ts.options (pointsTo "gone")) = Some "gone" /\
  "gone" <> "" /\
  sys_fileExists disk (configFileOf disk "gone") = false /\
  processProject 1 (pointsTo "gone") tt None start
  = (Normal None,
     with_exitCode
       (log start
          (ConsoleError "Project configuration file /repo/gone does not exist")) 1).
Proof.
  assert (Hne : "gone" <> "") by discriminate.
  split; [reflexivity|]. split; [exact Hne|]. split; [reflexivity|].
  assert (Hp : ts.project (ts.options (pointsTo "gone")) = Some "gone")
    by reflexivity.
  assert (Hf : sys_fileExists disk (configFileOf disk "gone") = false)
    by reflexivity.
  destruct (missing_configuration_file 0 (pointsTo "gone") tt None start "gone"
              Hp Hne) as [_ [_ Hmissing]].
  exact (proj1 (Hmissing Hf)).
Defined.

(** A project whose configuration file lists no files. *)
Lemma no_input_files_witness :
  resolveConfiguration (pointsTo "empty") start
  = (Normal (Some (Some "/repo/empty/tsconfig.json", commandLineOf [] [])), start) /\
  ts.fileNames (commandLineOf [] []) = [] /\
  processProject 1 (pointsTo "empty") tt None start
  = (Normal None,
     with_exitCode (log start (ConsoleError "No input files specified.")) 1).
Proof.
  assert (H : resolveConfiguration (pointsTo "empty") start
              = (Normal (Some (Some "/repo/empty/tsconfig.json",
                               commandLineOf [] [])), start))
    by (vm_compute; reflexivity).
  assert (Hf : ts.fileNames (commandLineOf [] []) = []) by reflexivity.
  split; [exact H|]. split; [exact Hf|].
  exact (proj1 (no_input_files 0 (pointsTo "empty") tt None start _ _ start H Hf)).
Defined.


Lemma absolute_idempotent (e e' : FileSystem) (p : string) :
  makeAbsolute e' (makeAbsolute e p) = makeAbsolute e p.
Proof.
  cbn [makeAbsolute external]. unfold absolute.
  destruct (starts_with_slash p) eqn:E; [rewrite E|]; reflexivity.
Qed.

(** The root project fills in both roots, calling the version-control
    tool once; the library, nested in it, finds them and calls nothing. *)
Lemma roots_are_resolved_once_witness :
  (forall e e' p, makeAbsolute e' (makeAbsolute e p) = makeAbsolute e p) /\
  prepare root start = (Normal (Some prepared), atLoop) /\
  projectRoot (options atLoop) = Some "/repo" /\
  repositoryRoot (options atLoop) = Some "/repo" /\
  options (snd (nested (commandLineOf ["/repo/lib/b.ts"] []) atLoop))
  = options atLoop /\
  executions (trace (snd (run 3 ["/repo/a.ts"] start))) = 1%nat.
Proof.
  split; [exact absolute_idempotent|]. split; [exact prepare_root|].
  destruct (roots_are_resolved_once (X := external) absolute_idempotent
              3 root tt None start
              prepared atLoop prepare_root) as [_ [_ [Hnested _]]].
  split; [vm_compute; reflexivity|]. split; [vm_compute; reflexivity|].
  split; [|vm_compute; reflexivity].
  exact (proj1 (Hnested 2%nat (commandLineOf ["/repo/lib/b.ts"] []) atLoop eq_refl)).
Defined.

End Checks.

(** * Further properties of the code *)

(** ** Relations kept by the steps the code takes

    As [Preservation], with the steps as the code takes them: the exit
    code is set to 1 or to -1 only, and the output changes by [emit]
    only. *)

Section Steps.
Context {T : Types} {X : External}.

Variables R Q : World -> World -> Prop.
Hypothesis R_refl : forall w, R w w.
Hypothesis R_trans : forall w1 w2 w3, R w1 w2 -> R w2 w3 -> R w1 w3.
Hypothesis Q_refl : forall w, Q w w.
Hypothesis RQ_trans : forall w1 w2 w3, R w1 w2 -> Q w2 w3 -> Q w1 w3.
Hypothesis R_console_error : forall w m, R w (log w (ConsoleError m)).
Hypothesis R_exit_1 : forall w, R w (with_exitCode w 1).
Hypothesis R_exit_minus_1 : forall w, R w (with_exitCode w (-1)).
Hypothesis R_env : forall w e, R w (with_env w e).
Hypothesis R_emit :
  forall w element,
    R w (with_output w (output w +:+ stringify element 0 +:+ String Text.LF "")).
Hypothesis R_next :
  forall w, R w (log (with_counter w (counter w + 1)) (NextIdentifier (counter w))).
Hypothesis R_roots : preserves R Q resolveRoots.

Ltac stepping :=
  repeat first
    [ apply (preserves_ret R Q R_refl)
    | apply (preserves_throw R Q Q_refl)
    | apply (preserves_out_of_fuel R Q Q_refl)
    | apply (preserves_get_env R Q R_refl)
    | apply (preserves_get_options R Q R_refl)
    | apply (preserves_console_error R Q R_console_error)
    | apply (preserves_loadConfigFile R Q R_refl Q_refl)
    | apply (preserves_idGenerator R Q R_next)
    | apply (preserves_inferTypingsStep R Q R_refl R_trans Q_refl RQ_trans R_env)
    | exact R_roots
    | (intros ?w; apply R_exit_1)
    | (intros ?w; apply R_exit_minus_1)
    | (intros ?w; apply R_emit)
    | (intros ?w; apply R_env)
    | apply (preserves_bind R Q R_trans RQ_trans); [|intros ?] ].

Lemma steps_resolveConfiguration config : preserves R Q (resolveConfiguration config).
Proof using R_refl R_trans Q_refl RQ_trans R_console_error R_exit_1.
  unfold resolveConfiguration.
  destruct (ts.project _) as [project|]; [|stepping].
  destruct (String.eqb _ _); [stepping|].
  apply (preserves_bind R Q R_trans RQ_trans); [stepping|]. intros e.
  destruct (negb _); stepping.
Qed.

Lemma steps_createProgram f config : preserves R Q (createProgram f config).
Proof using R_refl R_trans RQ_trans R_console_error R_exit_minus_1.
  unfold createProgram.
  apply (preserves_bind R Q R_trans RQ_trans); [stepping|]. intros e.
  destruct (getProgram _ _); stepping.
Qed.

Lemma steps_prepare config : preserves R Q (prepare config).
Proof using R_refl R_trans Q_refl RQ_trans R_console_error R_exit_1
  R_exit_minus_1 R_env R_roots.
  unfold prepare.
  apply (preserves_bind R Q R_trans RQ_trans); [apply steps_resolveConfiguration|].
  intros [[f config']|]; [|stepping].
  destruct (Nat.eqb _ _); [stepping|].
  apply (preserves_bind R Q R_trans RQ_trans); [exact R_roots|]. intros _.
  apply (preserves_bind R Q R_trans RQ_trans); [stepping|]. intros _.
  apply steps_createProgram.
Qed.

Lemma steps_runVisit {A} (v : Visit A) : preserves R Q (runVisit v).
Proof using R_refl R_trans Q_refl RQ_trans R_env R_emit R_next.
  induction v as [r|e|k IH|element k IH|update k IH]; cbn [runVisit].
  - stepping.
  - stepping.
  - apply (preserves_bind R Q R_trans RQ_trans); [stepping | exact IH].
  - apply (preserves_bind R Q R_trans RQ_trans); [|intros _; exact IH].
    intros w. apply R_emit.
  - apply (preserves_bind R Q R_trans RQ_trans); [stepping|]. intros e.
    apply (preserves_bind R Q R_trans RQ_trans); [|intros _; apply IH].
    intros w. apply R_env.
Qed.

Lemma steps_visit p dependsOn iL eL : preserves R Q (visit p dependsOn iL eL).
Proof using R_refl R_trans Q_refl RQ_trans R_env R_emit R_next.
  unfold visit.
  apply (preserves_bind R Q R_trans RQ_trans); [stepping|].
  intros o. apply steps_runVisit.
Qed.

Lemma steps_processProject fuel config iL eL :
  preserves R Q (processProject fuel config iL eL).
Proof using R_refl R_trans Q_refl RQ_trans R_console_error R_exit_1
  R_exit_minus_1 R_env R_emit R_next R_roots.
  revert config. induction fuel as [|fuel IH]; intros config; cbn [processProject].
  - stepping.
  - apply (preserves_bind R Q R_trans RQ_trans); [apply steps_prepare|].
    intros [p|]; [|stepping].
    apply (preserves_bind R Q R_trans RQ_trans); [|intros deps; apply steps_visit].
    apply (preserves_processReferences R Q R_refl R_trans RQ_trans).
    intros c. apply IH.
Qed.


End Steps.

(** ** The output only grows, by complete lines *)

Section OutputTheorems.
Context {T : Types} {X : External}.

Lemma unlines_app ls1 ls2 : unlines (ls1 ++ ls2) = unlines ls1 +:+ unlines ls2.
Proof.
  induction ls1 as [|l ls1 IH]; [reflexivity|].
  cbn [unlines app]. rewrite IH.
  rewrite !TextFacts.append_assoc. reflexivity.
Qed.


Lemma appends_refl w : appends w w.
Proof.
  exists []. split; [|constructor].
  simpl. now rewrite TextFacts.append_nil_r.
Qed.

Lemma appends_trans w1 w2 w3 : appends w1 w2 -> appends w2 w3 -> appends w1 w3.
Proof.
  intros [ls [Ho Hl]] [ls' [Ho' Hl']]. exists (ls ++ ls'). split.
  - rewrite Ho', Ho, unlines_app, TextFacts.append_assoc. reflexivity.
  - apply List.Forall_app. split; assumption.
Qed.

Lemma appends_same w w' : output w' = output w -> appends w w'.
Proof.
  intros H. exists []. split; [|constructor].
  simpl. now rewrite TextFacts.append_nil_r.
Qed.

Lemma appends_emit w element :
  appends w (with_output w (output w +:+ stringify element 0 +:+ String Text.LF "")).
Proof.
  exists [stringify element 0]. split.
  - reflexivity.
  - constructor; [apply JSONFacts.stringify_one_line | constructor].
Qed.

Lemma output_resolveRoots w : output (snd (resolveRoots w)) = output w.
Proof.
  unfold resolveRoots, bind, get_options, get_env, set_options, exec, ret.
  simpl. destruct (repositoryRoot _); simpl; [reflexivity|].
  destruct (execSync _ _); reflexivity.
Qed.

Lemma appends_resolveRoots : preserves appends appends resolveRoots.
Proof.
  apply preserves_of_snd. intros w. apply appends_same, output_resolveRoots.
Qed.


(** X7. Whatever [processProject] does, and however it ends, the output
    afterwards is the output before followed by complete lines, none of
    which has a line feed inside: nothing written earlier is changed or
    removed, and no line is left unfinished. *)
Theorem processProject_appends_lines fuel config iL eL w :
  exists ls,
    output (snd (processProject fuel config iL eL w)) = output w +:+ unlines ls /\
    Forall (fun l => Text.has_lf l = false) ls.
Proof.
  apply (preserves_snd appends). apply steps_processProject;
    first [ exact appends_refl | exact appends_trans | exact appends_emit
          | exact appends_resolveRoots
          | intros; apply appends_same; reflexivity ].
Qed.

















End OutputTheorems.

(** ** What [emit] writes has no control character in it *)

Module ControlFacts.
Import Text TextFacts.

Lemma has_control_app a b :
  has_control (a +:+ b) = (has_control a || has_control b)%bool.
Proof.
  induction a as [|c a IH]; [reflexivity|].
  rewrite append_cons. simpl. rewrite IH. apply orb_assoc.
Qed.

Lemma quote_char_clean c : has_control (quote_char c) = false.
Proof. destruct c as [[] [] [] [] [] [] [] []]; reflexivity. Qed.

Lemma quote_chars_clean s : has_control (quote_chars s) = false.
Proof.
  induction s as [|c s IH]; [reflexivity|].
  simpl. rewrite has_control_app, quote_char_clean, IH. reflexivity.
Qed.

Lemma QuoteJSONString_clean s : has_control (QuoteJSONString s) = false.
Proof.
  unfold QuoteJSONString. rewrite !has_control_app, quote_chars_clean. reflexivity.
Qed.

Lemma string_of_uint_clean d : has_control (NilEmpty.string_of_uint d) = false.
Proof. induction d; simpl; assumption || reflexivity. Qed.

Lemma NumberToString_clean n : has_control (NumberToString n) = false.
Proof.
  unfold NumberToString, NilZero.string_of_int, NilZero.string_of_uint.
  destruct (Z.to_int n) as [d|d]; destruct d; simpl;
    try reflexivity; apply string_of_uint_clean.
Qed.

Lemma concat_clean sep l :
  has_control sep = false -> Forall (fun s => has_control s = false) l ->
  has_control (String.concat sep l) = false.
Proof.
  intros Hsep Hl. induction Hl as [|s l Hs Hl IH]; [reflexivity|].
  destruct l as [|s' l]; [exact Hs|].
  change (String.concat sep (s :: s' :: l))
    with (s +:+ sep +:+ String.concat sep (s' :: l)).
  rewrite !has_control_app, Hs, Hsep, IH. reflexivity.
Qed.

Lemma wrap_compact_clean stepback indent opening closing partial :
  has_control opening = false -> has_control closing = false ->
  Forall (fun s => has_control s = false) partial ->
  has_control (wrap "" stepback indent opening closing partial) = false.
Proof.
  intros Ho Hc Hp. unfold wrap. destruct partial as [|s l].
  - rewrite has_control_app, Ho, Hc. reflexivity.
  - rewrite !has_control_app, Ho, Hc, concat_clean by (reflexivity || assumption).
    reflexivity.
Qed.

Lemma compact_clean v :
  forall indent, has_control (SerializeJSONProperty "" indent v) = false.
Proof.
  induction v as [|b|n|s|elements IH|properties IH] using Json_nested_ind;
    intros indent; cbn [SerializeJSONProperty].
  - reflexivity.
  - destruct b; reflexivity.
  - apply NumberToString_clean.
  - apply QuoteJSONString_clean.
  - apply wrap_compact_clean; try reflexivity.
    apply List.Forall_map. eapply List.Forall_impl; [|exact IH]. intros v Hv. apply Hv.
  - apply wrap_compact_clean; try reflexivity.
    apply List.Forall_map. eapply List.Forall_impl; [|exact IH]. intros [k v] Hv.
    cbn [fst snd] in *. unfold member.
    rewrite !has_control_app, QuoteJSONString_clean, Hv. reflexivity.
Qed.

End ControlFacts.

Section CleanLines.
Context {T : Types} {X : External}.

(** X9. The text [emit] puts before its line feed has no control
    character (U+0000 to U+001F) in it, whatever strings the element
    holds: no carriage return, tab or line feed of the element's data
    reaches the output unescaped. The line feed [emit] ends the line with
    is the only control character it writes. *)
Theorem emit_writes_no_control_character element w :
  has_control (stringify element 0) = false /\
  output (snd (emit element w))
  = output w +:+ stringify element 0 +:+ String Text.LF "".
Proof. split; [apply ControlFacts.compact_clean | reflexivity]. Qed.

End CleanLines.

(** ** How a project ends before its visitor runs *)

Section EarlyEnds.
Context {T : Types} {X : External}.

Lemma quiet_refl w : quiet w w.
Proof. repeat split. exists []. now rewrite app_nil_r. Qed.

Lemma quiet_trans w1 w2 w3 : quiet w1 w2 -> quiet w2 w3 -> quiet w1 w3.
Proof.
  intros [Ho [Hc [t Ht]]] [Ho' [Hc' [t' Ht']]].
  split; [congruence|]. split; [congruence|].
  exists (t ++ t'). rewrite Ht', Ht, app_assoc. reflexivity.
Qed.

Lemma quiet_resolveRoots w : quiet w (snd (resolveRoots w)).
Proof.
  unfold resolveRoots, bind, get_options, get_env, set_options, exec, ret.
  simpl. destruct (repositoryRoot _); simpl.
  - repeat split. exists []. now rewrite app_nil_r.
  - destruct (execSync _ _); simpl; repeat split; eexists; reflexivity.
Qed.

Lemma quiet_inferTypingsStep f config w : quiet w (snd (inferTypingsStep f config w)).
Proof.
  apply (preserves_snd quiet).
  apply preserves_inferTypingsStep;
    first [ exact quiet_refl | exact quiet_trans | idtac ].
  intros w0 e. repeat split. exists []. now rewrite app_nil_r.
Qed.

Lemma nonempty_length {A} (l : list A) : l <> [] -> Nat.eqb (length l) 0 = false.
Proof. destruct l; [congruence | reflexivity]. Qed.

(** X1. A project path whose configuration file exists but cannot be
    read as a configuration, or is read and then cannot take the forced
    defaults, or is read and then parsed with errors, makes
    [processProject] throw: the formatted diagnostics, or the fault of
    forcing the defaults. Unlike a missing file this is not reported on
    the console and sets no exit code: the state is left as it was, and
    the fault goes up to the caller. *)
Theorem invalid_configuration_throws fuel config iL eL w project :
  ts.project (ts.options config) = Some project ->
  project <> "" ->
  let file := configFileOf (env w) project in
  let absolute := path_resolve (env w) file in
  let readResult := readConfigFile (env w) absolute in
  let forced := forceDefaults file (ts.config readResult) in
  let parsed config' :=
    parseJsonConfigFileContent config' (path_dirname absolute) (env w) in
  sys_fileExists (env w) file = true ->
  (forall diagnostic,
      ts.error readResult = Some diagnostic ->
      processProject (S fuel) config iL eL w
      = (Throw (formatDiagnostics [diagnostic]), w)) /\
  (ts.error readResult = None ->
   forall config',
     forced = inr config' ->
     ts.errors (parsed config') <> [] ->
     processProject (S fuel) config iL eL w
     = (Throw (formatDiagnostics (ts.errors (parsed config'))), w)) /\
  (ts.error readResult = None ->
   forall fault,
     forced = inl fault ->
     processProject (S fuel) config iL eL w = (Throw fault, w)).
Proof.
  intros Hp Hne file absolute readResult forced parsed Hex.
  assert (Heq : String.eqb project "" = false) by (apply String.eqb_neq; exact Hne).
  assert (Hstart : forall completion,
             loadConfigFile file w = (Throw completion, w) ->
             processProject (S fuel) config iL eL w = (Throw completion, w)).
  { intros completion Hl.
    cbn [processProject]. unfold bind at 1. unfold prepare.
    unfold bind at 1. unfold resolveConfiguration. rewrite Hp, Heq.
    unfold bind at 1. unfold get_env at 1. cbv zeta. fold file.
    rewrite Hex. cbn [negb]. unfold bind at 1. rewrite Hl. reflexivity. }
  split; [|split].
  - intros diagnostic Hd. apply Hstart.
    unfold loadConfigFile, bind, get_env. cbv zeta.
    fold absolute readResult. rewrite Hd. reflexivity.
  - intros Hd config' Hf Herr. apply Hstart.
    unfold loadConfigFile, bind, get_env. cbv zeta.
    fold absolute readResult. rewrite Hd. fold forced. rewrite Hf.
    fold (parsed config').
    destruct (ts.errors (parsed config')) as [|d l]; [congruence | reflexivity].
  - intros Hd fault Hf. apply Hstart.
    unfold loadConfigFile, bind, get_env. cbv zeta.
    fold absolute readResult. rewrite Hd. fold forced. rewrite Hf. reflexivity.
Qed.

(** Where [prepare] gives up: the state it has reached, the message and
    the exit code. *)
Lemma prepare_gives_up config w w' :
  prepare config w = (Normal None, w') ->
  exists w0 message code,
    quiet w w0 /\ (code = 1 \/ code = -1) /\
    w' = with_exitCode (log w0 (ConsoleError message)) code.
Proof.
  unfold prepare. unfold bind at 1.
  destruct (resolveConfiguration config w) as [[[[f config']|]|e|] w0] eqn:Hr;
    try discriminate.
  - apply resolveConfiguration_reads in Hr. subst w0.
    destruct (Nat.eqb _ _).
    + intros [= <-]. exists w, "No input files specified.", 1.
      split; [apply quiet_refl|]. split; [left|]; reflexivity.
    + unfold bind at 1.
      pose proof (quiet_resolveRoots w) as Q1.
      destruct (resolveRoots w) as [[[]|e|] wR]; try discriminate.
      unfold bind at 1.
      pose proof (quiet_inferTypingsStep f config' wR) as Q2.
      destruct (inferTypingsStep f config' wR) as [[[]|e|] wT]; try discriminate.
      cbn [snd] in Q1, Q2.
      unfold createProgram, bind, get_env. cbv zeta.
      destruct (getProgram _ _); [discriminate|].
      intros [= <-].
      exists wT, "Couldn't create language service with underlying program.", (-1).
      split; [eapply quiet_trans; eassumption|]. split; [right|]; reflexivity.
  - intros [= <-]. revert Hr. unfold resolveConfiguration.
    destruct (ts.project _) as [project|]; [|discriminate].
    destruct (String.eqb _ _); [discriminate|].
    unfold bind at 1. unfold get_env at 1. cbv zeta.
    destruct (negb _).
    + intros [= <-]. eexists w, _, 1.
      split; [apply quiet_refl|]. split; [left|]; reflexivity.
    + unfold bind at 1.
      destruct (loadConfigFile _ w) as [[c|err|] w2]; discriminate.
Qed.

(** X2. Whenever [processProject] returns no [ProjectInfo] before it
    gets to its references (the configuration file is missing, there are
    no input files, or the engine has no program), the last thing it did
    was report an error on the console and set the exit code to 1 or to
    -1; it wrote nothing to the output and drew no identifier. *)
Theorem early_return_is_reported fuel config iL eL w w' :
  prepare config w = (Normal None, w') ->
  processProject (S fuel) config iL eL w = (Normal None, w') /\
  (exitCode w' = Some 1 \/ exitCode w' = Some (-1)) /\
  (exists t message, trace w' = trace w ++ t ++ [ConsoleError message]) /\
  output w' = output w /\
  counter w' = counter w.
Proof.
  intros Hp. split.
  - cbn [processProject]. unfold bind at 1. rewrite Hp. reflexivity.
  - destruct (prepare_gives_up _ _ _ Hp)
      as [w0 [message [code [[Ho [Hc [t Ht]]] [Hcode ->]]]]].
    cbn [exitCode with_exitCode output counter trace log].
    split; [destruct Hcode as [-> | ->]; [left|right]; reflexivity|].
    split; [exists t, message; rewrite Ht, app_assoc; reflexivity|].
    split; assumption.
Qed.

(** The loop stops at the first recursive call that throws. *)
Lemma processReferences_stops recurse before reference after dependsOn w
    outcomes w1 e w2 :
  analyses recurse before w = Some (outcomes, w1) ->
  recurse (ts.commandLine reference) w1 = (Throw e, w2) ->
  processReferences recurse (before ++ Some reference :: after) dependsOn w
  = (Throw e, w2).
Proof.
  revert dependsOn w outcomes.
  induction before as [|[r|] rest IH]; intros dependsOn w outcomes;
    cbn [analyses processReferences app].
  - intros [= _ <-] Hthrow. unfold bind at 1. rewrite Hthrow. reflexivity.
  - unfold bind at 1.
    destruct (recurse (ts.commandLine r) w) as [[outcome|err|] w'];
      [|discriminate..].
    destruct (analyses recurse rest w') as [[outcomes' final']|] eqn:E;
      [|discriminate].
    intros [= _ <-] Hthrow.
    destruct outcome; eapply IH; eassumption.
  - apply IH.
Qed.

(** X3. A fault thrown while a referenced project is processed is not
    caught: when the calls for the references before it have returned
    and the call for this one throws, [processProject] throws the same
    fault in the state the nested call left. The references after it are
    not processed and the project's own visitor never runs. *)
Theorem fault_in_reference_aborts_parent
    fuel config iL eL w p w1 before reference after outcomes w2 e w3 :
  prepare config w = (Normal (Some p), w1) ->
  referencesOf p = before ++ Some reference :: after ->
  analyses (fun c => processProject fuel c iL eL) before w1 = Some (outcomes, w2) ->
  processProject fuel (ts.commandLine reference) iL eL w2 = (Throw e, w3) ->
  processProject (S fuel) config iL eL w = (Throw e, w3).
Proof.
  intros Hp Hrefs Ha Hthrow.
  cbn [processProject]. unfold bind at 1. rewrite Hp.
  unfold bind at 1. rewrite Hrefs.
  rewrite (processReferences_stops _ _ _ _ _ _ _ _ _ _ Ha Hthrow). reflexivity.
Qed.

(** X17. The loop over the references composes: walking a list of
    references is walking a first part and then, with the [dependsOn]
    collected so far and in the state reached, the rest; if the first
    part throws, the rest is not walked. *)
Theorem processReferences_app recurse first rest dependsOn w :
  processReferences recurse (first ++ rest) dependsOn w
  = bind (processReferences recurse first dependsOn)
      (fun collected => processReferences recurse rest collected) w.
Proof.
  revert dependsOn w.
  induction first as [|[r|] first IH]; intros dependsOn w;
    cbn [processReferences app].
  - reflexivity.
  - unfold bind in IH |- *.
    destruct (recurse (ts.commandLine r) w) as [[[info|]|err|] w'];
      try reflexivity; apply IH.
  - apply IH.
Qed.

End EarlyEnds.

(** ** The roots, the typings and the exit code *)

Section RootsAndFaults.
Context {T : Types} {X : External}.

Lemma once_processProject fuel config iL eL :
  preserves once once_abrupt (processProject fuel config iL eL).
Proof.
  apply preserves_processProject;
    first [ exact once_refl | exact once_trans | exact once_abrupt_refl
          | exact once_abrupt_trans | exact once_resolveRoots | idtac ].
  - intros w m. apply once_quiet with (t := [ConsoleError m]); reflexivity.
  - intros w c. apply once_quiet with (t := []);
      [reflexivity | simpl; now rewrite app_nil_r | reflexivity].
  - intros w e. apply once_quiet with (t := []);
      [reflexivity | simpl; now rewrite app_nil_r | reflexivity].
  - intros w s. apply once_quiet with (t := []);
      [reflexivity | simpl; now rewrite app_nil_r | reflexivity].
  - intros w. apply once_quiet with (t := [NextIdentifier (counter w)]); reflexivity.
Qed.

(** X4. When the repository root is given in the options, no
    [processProject] call, however deep in the references and however it
    ends, runs the version-control tool. *)
Theorem given_repositoryRoot_needs_no_git fuel config iL eL w :
  is_Some (repositoryRoot (options w)) ->
  exists t,
    trace (snd (processProject fuel config iL eL w)) = trace w ++ t /\
    executions t = 0%nat.
Proof.
  intros Hs. pose proof (once_processProject fuel config iL eL w) as H.
  destruct (processProject fuel config iL eL w) as [[r|e|] w']; cbn [snd].
  - destruct H as [t [Ht [_ [Hz _]]]]. exists t. split; [exact Ht|].
    apply Hz, Hs.
  - destruct H as [t [Ht [_ Hz]]]. exists t. split; [exact Ht | apply Hz, Hs].
  - destruct H as [t [Ht [_ Hz]]]. exists t. split; [exact Ht | apply Hz, Hs].
Qed.

(** X5. When the repository root is not given and the version-control
    tool fails, a project that has passed its configuration checks
    throws the tool's fault: by then the project root has been filled in
    and made absolute, the repository root is still missing, nothing is
    reported on the console, no exit code is set and nothing is written. *)
Theorem git_failure_is_thrown fuel config iL eL w f config' w0 e :
  resolveConfiguration config w = (Normal (Some (f, config')), w0) ->
  ts.fileNames config' <> [] ->
  repositoryRoot (options w) = None ->
  execSync "git rev-parse --show-toplevel" (env w) = inl e ->
  let o :=
    Options.with_projectRoot (options w)
      (Some (makeAbsolute (env w)
               (default (process_cwd (env w)) (projectRoot (options w))))) in
  processProject (S fuel) config iL eL w
  = (Throw e, log (with_options w o) (ExecSync "git rev-parse --show-toplevel")).
Proof.
  intros Hr Hf Hnone Hgit o.
  pose proof (resolveConfiguration_reads _ _ _ _ Hr) as ->.
  cbn [processProject]. unfold bind at 1. unfold prepare.
  unfold bind at 1. rewrite Hr. rewrite (nonempty_length _ Hf).
  unfold bind at 1.
  assert (Hroots : resolveRoots w
                   = (Throw e, log (with_options w o)
                                 (ExecSync "git rev-parse --show-toplevel"))).
  { subst o.
    unfold resolveRoots, bind, get_options, get_env, set_options, exec, ret, narrowed.
    destruct (projectRoot (options w)) as [pr|] eqn:Hp;
      do 3 (simpl; rewrite ?Hp, ?Hnone, ?Hgit); reflexivity. }
  rewrite Hroots. reflexivity.
Qed.

Lemma list_ascii_of_string_app a b :
  list_ascii_of_string (a +:+ b) = list_ascii_of_string a ++ list_ascii_of_string b.
Proof.
  induction a as [|c a IH]; [reflexivity|].
  rewrite TextFacts.append_cons. simpl. f_equal. exact IH.
Qed.

(** White space at the end goes whatever comes before it. *)
Lemma strip_app n : forall a b,
  (length a <= n)%nat -> Text.strip a = [] -> Text.strip (a ++ b) = Text.strip b.
Proof.
  induction n as [|n IH]; intros a b Hl Hs.
  - destruct a; [reflexivity | simpl in Hl; lia].
  - destruct a as [|b3 a]; [reflexivity|].
    cbn [Text.strip app] in Hs |- *.
    destruct (Text.is_space b3).
    { apply IH; [simpl in Hl; lia | exact Hs]. }
    destruct a as [|b2 a]; [discriminate|].
    cbn [app]. destruct (Text.is_space2 b2 b3).
    { apply IH; [simpl in Hl; lia | exact Hs]. }
    destruct a as [|b1 a]; [discriminate|].
    cbn [app]. destruct (Text.is_space3 b1 b2 b3); [|discriminate].
    apply IH; [simpl in Hl; lia | exact Hs].
Qed.

Lemma trimRight_empty ws :
  Text.trimRight ws = "" -> Text.strip (List.rev (list_ascii_of_string ws)) = [].
Proof.
  unfold Text.trimRight. intros H.
  apply (f_equal list_ascii_of_string) in H.
  rewrite list_ascii_of_string_of_list_ascii in H. simpl in H.
  apply (f_equal (@List.rev ascii)) in H.
  rewrite List.rev_involutive in H. exact H.
Qed.

Lemma trimRight_trailing p ws :
  Text.trimRight ws = "" -> Text.trimRight (p +:+ ws) = Text.trimRight p.
Proof.
  intros Hws. apply trimRight_empty in Hws. unfold Text.trimRight.
  rewrite list_ascii_of_string_app, List.rev_app_distr.
  rewrite (strip_app _ _ _ (Nat.le_refl _) Hws). reflexivity.
Qed.

(** X6. The white space the version-control tool prints after the path,
    its line feed, does not get into the repository root: when the tool
    prints a path that does not end in white space, followed by white
    space only (of any kind [trimRight] takes away), the repository root
    is [makeAbsolute] of the path. *)
Theorem repositoryRoot_is_trimmed w p ws :
  repositoryRoot (options w) = None ->
  execSync "git rev-parse --show-toplevel" (env w) = inr (p +:+ ws) ->
  Text.trimRight ws = "" ->
  Text.trimRight p = p ->
  exists w',
    resolveRoots w = (Normal tt, w') /\
    repositoryRoot (options w') = Some (makeAbsolute (env w) p).
Proof.
  intros Hnone Hgit Hws Hp.
  unfold resolveRoots, bind, get_options, get_env, set_options, exec, ret, narrowed.
  destruct (projectRoot (options w)) as [pr|] eqn:Hpr;
    do 3 (simpl; rewrite ?Hpr, ?Hnone, ?Hgit);
    (eexists; split; [reflexivity|]; simpl;
     rewrite (trimRight_trailing p ws Hws), Hp; reflexivity).
Qed.

Lemma untouched_refl w : untouched w w.
Proof. intros H. split; [reflexivity | exact H]. Qed.

Lemma untouched_trans w1 w2 w3 :
  untouched w1 w2 -> untouched w2 w3 -> untouched w1 w3.
Proof.
  intros H12 H23 H. destruct (H12 H) as [E1 F1]. destruct (H23 F1) as [E2 F2].
  split; [congruence | exact F2].
Qed.

Lemma untouched_resolveRoots : preserves untouched untouched resolveRoots.
Proof.
  apply preserves_of_snd. intros w H.
  unfold resolveRoots, bind, get_options, get_env, set_options, exec, ret.
  simpl. destruct (repositoryRoot _); simpl.
  - split; [reflexivity|]. destruct (projectRoot (options w)); exact H.
  - destruct (execSync _ _); simpl;
      (split; [reflexivity|]; destruct (projectRoot (options w)); exact H).
Qed.

Lemma untouched_inferTypingsStep f config :
  preserves untouched untouched (inferTypingsStep f config).
Proof.
  apply preserves_of_snd. intros w H.
  unfold inferTypingsStep, bind, get_options. rewrite H.
  split; [reflexivity | exact H].
Qed.

(** X13. Unless typings inference was asked for, the steps of a project
    before its references are walked leave the environment as it is: the
    typings installer is not called, whatever the configuration says
    about types. *)
Theorem typings_only_on_request config w :
  inferTypings (options w) = false ->
  env (snd (prepare config w)) = env w.
Proof.
  intros H.
  assert (P : preserves untouched untouched (prepare config)).
  { unfold prepare.
    apply (preserves_bind _ _ untouched_trans untouched_trans).
    - apply preserves_resolveConfiguration;
        first [ exact untouched_refl | exact untouched_trans | idtac ];
        intros; intros F; (split; [reflexivity | exact F]).
    - intros [[f config']|]; [|apply preserves_ret; exact untouched_refl].
      destruct (Nat.eqb _ _).
      + apply (preserves_bind _ _ untouched_trans untouched_trans);
          [intros w0 F; split; [reflexivity | exact F]|].
        intros _.
        apply (preserves_bind _ _ untouched_trans untouched_trans);
          [intros w0 F; split; [reflexivity | exact F]|].
        intros _. apply preserves_ret. exact untouched_refl.
      + apply (preserves_bind _ _ untouched_trans untouched_trans);
          [exact untouched_resolveRoots|]. intros _.
        apply (preserves_bind _ _ untouched_trans untouched_trans);
          [apply untouched_inferTypingsStep|]. intros _.
        apply preserves_createProgram;
          first [ exact untouched_refl | exact untouched_trans | idtac ];
          intros; intros F; (split; [reflexivity | exact F]). }
  apply (preserves_snd untouched _ P w H).
Qed.

Lemma stays_failing_same w w' : exitCode w' = exitCode w -> stays_failing w w'.
Proof. intros E [c [Hc Hn]]. exists c. rewrite E. split; assumption. Qed.

Lemma exitCode_resolveRoots w : exitCode (snd (resolveRoots w)) = exitCode w.
Proof.
  unfold resolveRoots, bind, get_options, get_env, set_options, exec, ret.
  simpl. destruct (repositoryRoot _); simpl; [reflexivity|].
  destruct (execSync _ _); reflexivity.
Qed.

(** X14. An exit code that says failure stays one: once the exit code is
    set and not 0, it is set and not 0 after any [processProject] call,
    however that call ends. A project that fails leaves its mark on the
    exit code even when the projects after it, and the project that
    refers to it, are processed without fault. *)
Theorem failure_stays_in_exit_code fuel config iL eL w c :
  exitCode w = Some c ->
  c <> 0 ->
  exists c', exitCode (snd (processProject fuel config iL eL w)) = Some c' /\ c' <> 0.
Proof.
  intros Hc Hn.
  assert (P : preserves stays_failing stays_failing (processProject fuel config iL eL)).
  { apply steps_processProject;
      first [ (intros ? ?; exact id)
            | (intros w1 w2 w3 H12 H23 F; exact (H23 (H12 F)))
            | (intros; apply stays_failing_same; reflexivity)
            | idtac ].
    - intros w0 _. exists 1. split; [reflexivity | lia].
    - intros w0 _. exists (-1). split; [reflexivity | lia].
    - apply preserves_of_snd. intros w0.
      apply stays_failing_same, exitCode_resolveRoots. }
  apply (preserves_snd stays_failing _ P w). exists c. split; assumption.
Qed.

(** X15. When the output file cannot be opened, no project is processed:
    [run] throws the fault of opening, and the script reports it on the
    console and sets the exit code to 1. Nothing else has happened: no
    identifier was drawn and no child process was run. *)
Theorem unopenable_output_ends_the_run fuel args w e :
  let o := minimist (env w) in
  version o = false ->
  help o = false ->
  fs_openSync (out o) (env w) = Some e ->
  run fuel args w = (Throw e, with_options w o) /\
  script fuel args w
  = (Normal tt, with_exitCode (log (with_options w o) (ConsoleError e)) 1).
Proof.
  intros o Hv Hh Ho.
  assert (Hrun : run fuel args w = (Throw e, with_options w o)).
  { unfold run. unfold bind at 1. unfold get_env at 1. cbv zeta.
    unfold bind at 1. unfold set_options at 1. fold o. rewrite Hv, Hh.
    destruct (projectRoot o); unfold bind at 1; unfold openWriter at 1;
      cbn [env with_options]; rewrite Ho; reflexivity. }
  split; [exact Hrun|]. unfold script. rewrite Hrun. reflexivity.
Qed.

(** X16. When the version or the help is asked for, [run] prints the
    one text, the version if both are asked for, and returns: the output
    file is not opened, so what it holds stays, no exit code is set and
    no project is processed. *)
Theorem version_and_help_only_print fuel args w :
  let o := minimist (env w) in
  (version o || help o)%bool = true ->
  run fuel args w
  = (Normal tt,
     log (with_options w o) (ConsoleLog (if version o then toolVersion else usage))).
Proof.
  intros o H.
  unfold run. unfold bind at 1. unfold get_env at 1. cbv zeta.
  unfold bind at 1. unfold set_options at 1. fold o.
  destruct (version o); [reflexivity|].
  destruct (help o); [reflexivity | discriminate].
Qed.

End RootsAndFaults.

(** ** More on the snapshot map *)

Section SnapshotFrame.
Context {T : Types} {X : External}.

(** X10. A request for one file leaves the entries of all other files
    as they are, and makes at most one new snapshot object. *)
Theorem request_touches_its_file_only fileName other e h :
  other <> fileName ->
  let h' := snd (getScriptSnapshot fileName e h) in
  ts.entries h' !! other = ts.entries h !! other /\
  (ts.allocated h <= ts.allocated h' <= S (ts.allocated h))%nat.
Proof.
  intros Hne h'. subst h'. unfold getScriptSnapshot.
  destruct (ts.entries h !! fileName); [simpl; split; [reflexivity | lia]|].
  destruct (negb _); [simpl; split; [reflexivity | lia]|].
  destruct (sys_readFile e fileName); simpl; [|split; [reflexivity | lia]].
  split; [|lia]. apply lookup_insert_ne. congruence.
Qed.

(** X11. A request returns no snapshot exactly when the file is not in
    the map and, on the file system of that moment, does not exist or
    cannot be read. An existing file that reads as the empty text does
    get a snapshot. *)
Theorem absent_exactly_when_unreadable fileName e h :
  fst (getScriptSnapshot fileName e h) = None <->
  ts.entries h !! fileName = None /\
  (sys_fileExists e fileName = false \/ sys_readFile e fileName = None).
Proof.
  unfold getScriptSnapshot.
  destruct (ts.entries h !! fileName) as [s|].
  { simpl. split; [discriminate | intros [[=] _]]. }
  destruct (sys_fileExists e fileName); simpl.
  - destruct (sys_readFile e fileName); simpl.
    + split; [discriminate | intros [_ [[=]|[=]]]].
    + split; auto.
  - split; auto.
Qed.

(** X12. The host of a project starts with an empty map, whatever other
    hosts have read: its first request for a file gives what the file
    system holds at that moment, a snapshot of the current content or
    none. Snapshots are kept per project, not per run. *)
Theorem new_host_reads_the_file_system tsconfigFileName config fileName e :
  fst (getScriptSnapshot fileName e
         (ts.scriptSnapshots (createHost tsconfigFileName config)))
  = if sys_fileExists e fileName
    then (fun content => fromString content 0) <$> sys_readFile e fileName
    else None.
Proof.
  unfold getScriptSnapshot, createHost. cbn [ts.scriptSnapshots ts.entries ts.allocated].
  rewrite lookup_empty.
  destruct (sys_fileExists e fileName); simpl; [|reflexivity].
  destruct (sys_readFile e fileName); reflexivity.
Qed.

End SnapshotFrame.

(** ** The usage text *)

Section UsageTheorems.

Lemma length_append (a b : string) :
  String.length (a +:+ b) = (String.length a + String.length b)%nat.
Proof.
  induction a as [|c a IH]; [reflexivity|].
  rewrite TextFacts.append_cons. simpl. rewrite IH. reflexivity.
Qed.

Lemma length_repeat_space n : String.length (Text.repeat_space n) = n.
Proof. induction n as [|n IH]; [reflexivity | simpl; now rewrite IH]. Qed.

(** X18. In the usage text the descriptions line up: for every option
    whose name is no longer than the longest name of the table and whose
    alias, if it has one, is one character, the line is a prefix of
    [longestId + 8] characters followed by the description. This holds
    for every option of the table. *)
Theorem usage_descriptions_line_up d :
  (String.length (OptionDescription.id d) <= longestId)%nat ->
  match OptionDescription.alias d with
  | Some alias => String.length alias = 1%nat
  | None => True
  end ->
  (exists prefix,
      usageLine d = prefix +:+ OptionDescription.description d /\
      String.length prefix = (longestId + 8)%nat) /\
  Forall (fun d' =>
            exists prefix,
              usageLine d' = prefix +:+ OptionDescription.description d' /\
              String.length prefix = (longestId + 8)%nat)
    Options.descriptions.
Proof.
  assert (G : forall d0,
             (String.length (OptionDescription.id d0) <= longestId)%nat ->
             match OptionDescription.alias d0 with
             | Some alias => String.length alias = 1%nat
             | None => True
             end ->
             exists prefix,
               usageLine d0 = prefix +:+ OptionDescription.description d0 /\
               String.length prefix = (longestId + 8)%nat).
  { intros d0 Hid Halias. unfold usageLine. cbv zeta.
    remember longestId as longest eqn:E. clear E.
    destruct (OptionDescription.alias d0) as [alias|].
    - exists ("  -" +:+ alias +:+ " --" +:+ OptionDescription.id d0
              +:+ Text.repeat_space (longest - String.length (OptionDescription.id d0))
              +:+ " ").
      split.
      + rewrite !TextFacts.append_assoc. reflexivity.
      + rewrite !length_append, length_repeat_space, Halias. simpl. lia.
    - exists ("  --" +:+ OptionDescription.id d0 +:+ "   "
              +:+ Text.repeat_space (longest - String.length (OptionDescription.id d0))
              +:+ " ").
      split.
      + rewrite !TextFacts.append_assoc. reflexivity.
      + rewrite !length_append, length_repeat_space. simpl. lia. }
  intros Hid Halias. split; [apply G; assumption|].
  unfold Options.descriptions.
  repeat (apply List.Forall_cons;
          [apply G; [vm_compute; lia | first [reflexivity | exact I]]|]).
  apply List.Forall_nil.
Qed.

End UsageTheorems.

(** ** The options other than the roots *)

Section SettingsTheorems.
Context {T : Types} {X : External}.

Lemma same_settings_refl w : same_settings w w.
Proof. repeat split. Qed.

Lemma same_settings_trans w1 w2 w3 :
  same_settings w1 w2 -> same_settings w2 w3 -> same_settings w1 w3.
Proof.
  intros [A1 [A2 [A3 [A4 A5]]]] [B1 [B2 [B3 [B4 B5]]]].
  repeat split; congruence.
Qed.

Lemma same_settings_same w w' : options w' = options w -> same_settings w w'.
Proof. intros E. unfold same_settings. rewrite E. repeat split. Qed.

Lemma same_settings_resolveRoots : preserves same_settings same_settings resolveRoots.
Proof.
  apply preserves_of_snd. intros w.
  unfold resolveRoots, bind, get_options, get_env, set_options, exec, ret.
  simpl. destruct (repositoryRoot _); simpl.
  - destruct (projectRoot (options w)); repeat split.
  - destruct (execSync _ _); simpl;
      destruct (projectRoot (options w)); repeat split.
Qed.

(** X19. Of the shared options object [processProject] changes the two
    roots and nothing else: the help, version, content, typings and
    output settings are after any call, however deep it went and however
    it ended, what they were before. *)
Theorem processProject_keeps_settings fuel config iL eL w :
  let w' := snd (processProject fuel config iL eL w) in
  help (options w') = help (options w) /\
  version (options w') = version (options w) /\
  addContents (options w') = addContents (options w) /\
  inferTypings (options w') = inferTypings (options w) /\
  out (options w') = out (options w).
Proof.
  apply (preserves_snd same_settings). apply steps_processProject;
    first [ exact same_settings_refl | exact same_settings_trans
          | exact same_settings_resolveRoots
          | intros; apply same_settings_same; reflexivity ].
Qed.

End SettingsTheorems.

(** * The further properties at work *)

Module MoreChecks.
Import Demo Variants.

(** [a.ts] exists but is not a configuration file. *)
Lemma invalid_configuration_throws_witness :
  ts.project (ts.options (pointsTo "/repo/a.ts")) = Some "/repo/a.ts" /\
  "/repo/a.ts" <> "" /\
  @sys_fileExists Demo.types Demo.external disk
    (@configFileOf Demo.types Demo.external disk "/repo/a.ts") = true /\
  @processProject Demo.types Demo.external 1 (pointsTo "/repo/a.ts") tt None start
  = (Throw "Cannot read file /repo/a.ts", start).
Proof.
  assert (Hp : ts.project (ts.options (pointsTo "/repo/a.ts")) = Some "/repo/a.ts")
    by reflexivity.
  assert (Hne : "/repo/a.ts" <> "") by discriminate.
  assert (Hex : @sys_fileExists Demo.types Demo.external (env start)
                  (@configFileOf Demo.types Demo.external (env start) "/repo/a.ts")
                = true) by reflexivity.
  split; [exact Hp|]. split; [exact Hne|]. split; [exact Hex|].
  destruct (@invalid_configuration_throws Demo.types Demo.external
              0 (pointsTo "/repo/a.ts") tt None start "/repo/a.ts" Hp Hne Hex)
    as [Hread _].
  apply (Hread "Cannot read file /repo/a.ts"). reflexivity.
Defined.

(** A project without files. *)
Lemma early_return_is_reported_witness :
  @prepare Demo.types Demo.external (commandLineOf [] []) start
  = (Normal None,
     with_exitCode (log start (ConsoleError "No input files specified.")) 1) /\
  @processProject Demo.types Demo.external 1 (commandLineOf [] []) tt None start
  = (Normal None,
     with_exitCode (log start (ConsoleError "No input files specified.")) 1).
Proof.
  assert (H : @prepare Demo.types Demo.external (commandLineOf [] []) start
              = (Normal None,
                 with_exitCode (log start (ConsoleError "No input files specified.")) 1))
    by (vm_compute; reflexivity).
  split; [exact H|].
  exact (proj1 (@early_return_is_reported Demo.types Demo.external
                  0 (commandLineOf [] []) tt None start _ H)).
Defined.

(** The visitor faults on the library, the first reference of the root:
    the root throws, with nothing written. *)
Lemma fault_in_reference_aborts_parent_witness :
  @prepare Demo.types brittle root start = (Normal (Some prepared), brittleAtLoop) /\
  @referencesOf Demo.types brittle prepared
  = [] ++ Some library
       :: [Some {| ts.commandLine := commandLineOf [] [] |}; None] /\
  @processProject Demo.types brittle 2 (ts.commandLine library) tt None brittleAtLoop
  = (Throw "visitor failed", brittleAtFault) /\
  @processProject Demo.types brittle 3 root tt None start
  = (Throw "visitor failed", brittleAtFault) /\
  output brittleAtFault = "".
Proof.
  assert (H1 : @prepare Demo.types brittle root start
               = (Normal (Some prepared), brittleAtLoop))
    by (vm_compute; reflexivity).
  assert (H2 : @referencesOf Demo.types brittle prepared
               = [] ++ Some library
                    :: [Some {| ts.commandLine := commandLineOf [] [] |}; None])
    by reflexivity.
  assert (H3 : @analyses Demo.types
                 (fun c => @processProject Demo.types brittle 2 c tt None)
                 [] brittleAtLoop = Some ([], brittleAtLoop))
    by reflexivity.
  assert (H4 : @processProject Demo.types brittle 2 (ts.commandLine library) tt None
                 brittleAtLoop = (Throw "visitor failed", brittleAtFault))
    by (vm_compute; reflexivity).
  split; [exact H1|]. split; [exact H2|]. split; [exact H4|]. split.
  - exact (@fault_in_reference_aborts_parent Demo.types brittle 2 root tt None start
             prepared brittleAtLoop [] library _ [] brittleAtLoop _ brittleAtFault
             H1 H2 H3 H4).
  - vm_compute. reflexivity.
Defined.

(** With [--repositoryRoot /elsewhere] the three projects are processed
    without a child process. *)
Lemma given_repositoryRoot_needs_no_git_witness :
  is_Some (repositoryRoot (options rooted)) /\
  executions (trace (snd (@processProject Demo.types Demo.external 3 root tt None
                            rooted))) = 0%nat /\
  exists t,
    trace (snd (@processProject Demo.types Demo.external 3 root tt None rooted))
    = trace rooted ++ t /\ executions t = 0%nat.
Proof.
  assert (H : is_Some (repositoryRoot (options rooted)))
    by (exists "/elsewhere"; reflexivity).
  split; [exact H|]. split; [vm_compute; reflexivity|].
  exact (@given_repositoryRoot_needs_no_git Demo.types Demo.external
           3 root tt None rooted H).
Defined.

(** Outside a checkout the root project throws what the tool said. *)
Lemma git_failure_is_thrown_witness :
  @resolveConfiguration Demo.types faulty root start
  = (Normal (Some (None, root)), start) /\
  ts.fileNames root <> [] /\
  repositoryRoot (options start) = None /\
  @execSync Demo.types faulty "git rev-parse --show-toplevel" (env start)
  = inl "fatal: not a git repository" /\
  fst (@processProject Demo.types faulty 3 root tt None start)
  = Throw "fatal: not a git repository" /\
  projectRoot (options (snd (@processProject Demo.types faulty 3 root tt None start)))
  = Some "/repo".
Proof.
  assert (H1 : @resolveConfiguration Demo.types faulty root start
               = (Normal (Some (None, root)), start)) by reflexivity.
  assert (H2 : ts.fileNames root <> []) by discriminate.
  assert (H3 : repositoryRoot (options start) = None) by reflexivity.
  assert (H4 : @execSync Demo.types faulty "git rev-parse --show-toplevel" (env start)
               = inl "fatal: not a git repository") by reflexivity.
  split; [exact H1|]. split; [exact H2|]. split; [exact H3|]. split; [exact H4|].
  rewrite (@git_failure_is_thrown Demo.types faulty 2 root tt None start
             None root start _ H1 H2 H3 H4).
  split; vm_compute; reflexivity.
Defined.

(** The tool prints the path and a line feed. *)
Lemma repositoryRoot_is_trimmed_witness :
  repositoryRoot (options start) = None /\
  @execSync Demo.types Demo.external "git rev-parse --show-toplevel" (env start)
  = inr ("/repo" +:+ String Text.LF "") /\
  Text.trimRight (String Text.LF "") = "" /\
  Text.trimRight "/repo" = "/repo" /\
  exists w',
    @resolveRoots Demo.types Demo.external start = (Normal tt, w') /\
    repositoryRoot (options w') = Some "/repo".
Proof.
  assert (H1 : repositoryRoot (options start) = None) by reflexivity.
  assert (H2 : @execSync Demo.types Demo.external
                 "git rev-parse --show-toplevel" (env start)
               = inr ("/repo" +:+ String Text.LF "")) by reflexivity.
  assert (H3 : Text.trimRight (String Text.LF "") = "") by reflexivity.
  assert (H4 : Text.trimRight "/repo" = "/repo") by reflexivity.
  split; [exact H1|]. split; [exact H2|]. split; [exact H3|]. split; [exact H4|].
  exact (@repositoryRoot_is_trimmed Demo.types Demo.external start "/repo"
           (String Text.LF "") H1 H2 H3 H4).
Defined.

(** [trimRight] takes away a no-break space (U+00A0), a byte order mark
    (U+FEFF) and a line separator (U+2028) like a line feed; it keeps
    white space inside the text, a zero-width space (U+200B), which is
    no white space, and a letter of two bytes. *)
Lemma trimRight_at_work :
  Text.trimRight ("/repo" +:+ String "194" (String "160" "")) = "/repo" /\
  Text.trimRight ("/repo" +:+ String "239" (String "187" (String "191" ""))) = "/repo" /\
  Text.trimRight ("/my repo" +:+ String "226" (String "128" (String "168" ""))
                  +:+ String Text.LF "") = "/my repo" /\
  Text.trimRight ("/repo" +:+ String "226" (String "128" (String "139" "")))
  = "/repo" +:+ String "226" (String "128" (String "139" "")) /\
  Text.trimRight ("/caf" +:+ String "195" (String "169" "") +:+ " ")
  = "/caf" +:+ String "195" (String "169" "").
Proof. repeat split; vm_compute; reflexivity. Qed.

(** The tool's output ends in a no-break space and a line feed: neither
    gets into the repository root. *)
Lemma no_break_space_is_trimmed :
  let git := "/repo" +:+ String "194" (String "160" "") +:+ String Text.LF "" in
  repositoryRoot
    (options (snd (@resolveRoots Demo.types
                     (variant (inr git) None Options.defaults false) start)))
  = Some "/repo".
Proof. vm_compute. reflexivity. Qed.


(** [b.ts] is requested; the entry of [a.ts] is as before. *)
Lemma request_touches_its_file_only_witness :
  "/repo/a.ts" <> "/repo/lib/b.ts" /\
  let h := snd (@getScriptSnapshot Demo.types Demo.external "/repo/a.ts" disk emptyMap) in
  ts.entries (snd (@getScriptSnapshot Demo.types Demo.external "/repo/lib/b.ts" later h))
    !! "/repo/a.ts"
  = ts.entries h !! "/repo/a.ts".
Proof.
  assert (H : "/repo/a.ts" <> "/repo/lib/b.ts") by discriminate.
  split; [exact H|]. intros h.
  exact (proj1 (@request_touches_its_file_only Demo.types Demo.external
                  "/repo/lib/b.ts" "/repo/a.ts" later h H)).
Defined.

(** Typings inference is off by default. *)
Lemma typings_only_on_request_witness :
  inferTypings (options start) = false /\
  env (snd (@prepare Demo.types Demo.external root start)) = env start.
Proof.
  assert (H : inferTypings (options start) = false) by reflexivity.
  split; [exact H|].
  exact (@typings_only_on_request Demo.types Demo.external root start H).
Defined.

(** After an earlier failure the three projects are processed and the
    exit code still says failure. *)
Lemma failure_stays_in_exit_code_witness :
  exitCode failed = Some 1 /\
  1 <> 0 /\
  fst (@processProject Demo.types Demo.external 3 root tt None failed)
  = Normal (Some (3, [1])) /\
  exists c',
    exitCode (snd (@processProject Demo.types Demo.external 3 root tt None failed))
    = Some c' /\ c' <> 0.
Proof.
  assert (H1 : exitCode failed = Some 1) by reflexivity.
  assert (H2 : 1 <> 0) by lia.
  split; [exact H1|]. split; [exact H2|]. split; [vm_compute; reflexivity|].
  exact (@failure_stays_in_exit_code Demo.types Demo.external
           3 root tt None failed 1 H1 H2).
Defined.

(** The output file cannot be opened. *)
Lemma unopenable_output_ends_the_run_witness :
  version (@minimist Demo.types faulty (env start)) = false /\
  help (@minimist Demo.types faulty (env start)) = false /\
  @fs_openSync Demo.types faulty (out (@minimist Demo.types faulty (env start)))
    (env start) = Some "EACCES: permission denied" /\
  @script Demo.types faulty 3 ["/repo/a.ts"] start
  = (Normal tt,
     with_exitCode
       (log (with_options start Options.defaults)
          (ConsoleError "EACCES: permission denied")) 1).
Proof.
  assert (H1 : version (@minimist Demo.types faulty (env start)) = false)
    by reflexivity.
  assert (H2 : help (@minimist Demo.types faulty (env start)) = false)
    by reflexivity.
  assert (H3 : @fs_openSync Demo.types faulty
                 (out (@minimist Demo.types faulty (env start))) (env start)
               = Some "EACCES: permission denied") by reflexivity.
  split; [exact H1|]. split; [exact H2|]. split; [exact H3|].
  exact (proj2 (@unopenable_output_ends_the_run Demo.types faulty
                  3 ["/repo/a.ts"] start _ H1 H2 H3)).
Defined.

(** [--help]: the usage text and nothing else. *)
Lemma version_and_help_only_print_witness :
  (version (@minimist Demo.types asking (env start))
   || help (@minimist Demo.types asking (env start)))%bool = true /\
  @run Demo.types asking 3 ["/repo/a.ts"] start
  = (Normal tt, log (with_options start helpAsked) (ConsoleLog (@usage Demo.types asking))).
Proof.
  assert (H : (version (@minimist Demo.types asking (env start))
               || help (@minimist Demo.types asking (env start)))%bool = true)
    by reflexivity.
  split; [exact H|].
  exact (@version_and_help_only_print Demo.types asking 3 ["/repo/a.ts"] start H).
Defined.

(** The option [out], the shortest name of the table. *)
Lemma usage_descriptions_line_up_witness :
  (String.length "out" <= longestId)%nat /\
  exists prefix,
    usageLine
      {| OptionDescription.id := "out"; OptionDescription.type := OptionDescription.string_;
         OptionDescription.alias := None;
         OptionDescription.description := "The output file the dump is save to." |}
    = prefix +:+ "The output file the dump is save to." /\
    String.length prefix = 22%nat.
Proof.
  assert (H : (String.length "out" <= longestId)%nat) by (vm_compute; lia).
  split; [exact H|].
  exact (proj1 (usage_descriptions_line_up
                  {| OptionDescription.id := "out";
                     OptionDescription.type := OptionDescription.string_;
                     OptionDescription.alias := None;
                     OptionDescription.description :=
                       "The output file the dump is save to." |} H I)).
Defined.

End MoreChecks.
